(** * Portfolio performance: a shallow embedding of [portfolio_perfomance.py]

    The Python module computes, from four date-indexed tables, the daily
    price, currency and total returns of every asset, weights them into
    three portfolio-level return series and compounds each of them over a
    caller-supplied date window.

    Dates are day numbers ([Z]); a pandas float column is a list over an
    abstract number type [F] that carries the arithmetic of the program and
    the test [isna] for the missing value; Python exceptions are the
    constructors of [exn]. *)

From Stdlib Require Import List ZArith String Bool Lia Arith QArith.
Import ListNotations.
Close Scope Q_scope.
Open Scope nat_scope.

Set Implicit Arguments.

(** ** Exceptions *)

Inductive exn : Type :=
| KeyError
| ValueError
| IndexError
| TypeError
| AttributeError.

Inductive result (A : Type) : Type :=
| Ok (a : A)
| Raise (e : exn).

Arguments Ok {A} a.
Arguments Raise {A} e.

Definition bind {A B : Type} (c : result A) (k : A -> result B) : result B :=
  match c with
  | Ok a => k a
  | Raise e => Raise e
  end.

Declare Scope py_scope.
Delimit Scope py_scope with py.
Notation "x <- c ;; k" := (bind c (fun x => k))
  (at level 100, c at next level, right associativity) : py_scope.
Notation "' p <- c ;; k" := (bind c (fun p => k))
  (at level 100, p pattern, c at next level, right associativity) : py_scope.
Open Scope py_scope.

(** A [for] loop that appends one computed element per iteration. *)
Fixpoint mapM {A B : Type} (f : A -> result B) (l : list A) : result (list B) :=
  match l with
  | [] => Ok []
  | x :: t => y <- f x ;; ys <- mapM f t ;; Ok (y :: ys)
  end.

(** [a[i]] on a Python list or NumPy array, for a non-negative [i]. *)
Definition item {A : Type} (a : list A) (i : nat) : result A :=
  match nth_error a i with
  | Some x => Ok x
  | None => Raise IndexError
  end.

(** ** Numbers

    The program computes on NumPy [float64] values.  Its arithmetic is kept
    abstract: [fzero] and [fone] are the literals [0] and [1], [nan] is the
    value pandas stores in a cell that has no observation. *)

Class FloatOps (F : Type) : Type := {
  fzero : F;
  fone : F;
  nan : F;
  fadd : F -> F -> F;
  fsub : F -> F -> F;
  fmul : F -> F -> F;
  fdiv : F -> F -> F;
  isna : F -> bool
}.

(** ** Row and column labels *)

Section Labels.
Context {L : Type} (eqb ltb : L -> L -> bool).

Fixpoint list_eqb (a b : list L) : bool :=
  match a, b with
  | [], [] => true
  | x :: a', y :: b' => eqb x y && list_eqb a' b'
  | _, _ => false
  end.

(** Positions at which label [x] occurs. *)
Fixpoint positions_from (n : nat) (x : L) (l : list L) : list nat :=
  match l with
  | [] => []
  | y :: t =>
      if eqb x y then n :: positions_from (S n) x t
      else positions_from (S n) x t
  end.

Definition positions (x : L) (l : list L) : list nat := positions_from 0 x l.

Fixpoint insert_label (x : L) (l : list L) : list L :=
  match l with
  | [] => [x]
  | y :: t =>
      if eqb x y then l
      else if ltb x y then x :: l
      else y :: insert_label x t
  end.

Definition sort_labels (l : list L) : list L := fold_right insert_label [] l.

(** The outer join of two unique indexes, as frame arithmetic aligns its
    operands: the left index when both are equal, the other one when one
    is empty, the sorted union otherwise. *)
Definition outer_join (a b : list L) : list L :=
  if list_eqb a b then a
  else match a, b with
       | [], _ => b
       | _, [] => a
       | _, _ => sort_labels (a ++ b)
       end.
End Labels.

Definition date : Type := Z.

(** [pd.date_range(a, b, freq='D')]: every day from [a] to [b] inclusive,
    empty when [b] is before [a]. *)
Definition date_range (a b : date) : list date :=
  map (fun k => (a + Z.of_nat k)%Z) (seq 0 (Z.to_nat (b - a + 1))).

Section Model.
Context {F : Type} `{FloatOps F}.

(** ** Frames and series *)

(** A frame: its row labels and its named columns, each column holding
    one value per row. *)
Record DataFrame : Type := {
  df_index : list date;
  df_columns : list (string * list F)
}.

(** A date-indexed series. *)
Definition Series : Type := list (date * F).

Definition s_index (s : Series) : list date := map fst s.
Definition s_values (s : Series) : list F := map snd s.

Definition columns (df : DataFrame) : list string := map fst (df_columns df).

(** [len(df)] *)
Definition nrows (df : DataFrame) : nat := List.length (df_index df).

Fixpoint lookup {A : Type} (k : string) (l : list (string * A)) : option A :=
  match l with
  | [] => None
  | (k', v) :: t => if String.eqb k k' then Some v else lookup k t
  end.

(** [df[name]] *)
Definition getitem (df : DataFrame) (name : string) : result (list F) :=
  match lookup name (df_columns df) with
  | Some col => Ok col
  | None => Raise KeyError
  end.

(** ** Calendar normalizer *)

(** Rows of the left join of a day list with an index: each day is paired
    with every position that carries it, or with no position at all. *)
Definition join_rows (days idx : list date) : list (date * option nat) :=
  flat_map (fun d =>
              match positions Z.eqb d idx with
              | [] => [(d, None)]
              | ps => map (fun p => (d, Some p)) ps
              end) days.

Definition take (col : list F) (r : option nat) : F :=
  match r with
  | Some p => nth p col nan
  | None => nan
  end.

Definition __get_new_index (df : DataFrame) : result DataFrame :=
  match df_index df with
  | [] => Raise IndexError
  | first :: _ =>
      let rows := join_rows (date_range first (last (df_index df) first))
                            (df_index df) in
      Ok {| df_index := map fst rows;
            df_columns :=
              map (fun c => (fst c, map (fun r => take (snd c) (snd r)) rows))
                  (df_columns df) |}
  end.

(** [fillna(method='ffill')]: [prev] is the last valid value seen. *)
Fixpoint ffill_from (prev : option F) (l : list F) : list F :=
  match l with
  | [] => []
  | x :: t =>
      if isna x then
        match prev with
        | Some v => v :: ffill_from prev t
        | None => x :: ffill_from None t
        end
      else x :: ffill_from (Some x) t
  end.

Definition ffill (l : list F) : list F := ffill_from None l.

Definition first_valid (l : list F) : option F :=
  find (fun x => negb (isna x)) l.

(** [fillna(method='bfill')]: a missing value takes the next valid one. *)
Fixpoint bfill (l : list F) : list F :=
  match l with
  | [] => []
  | x :: t =>
      (if isna x then
         match first_valid t with
         | Some v => v
         | None => x
         end
       else x) :: bfill t
  end.

Definition __replace_na_values (column : list F) : list F :=
  bfill (ffill column).

(** ** Return calculator *)

(** The four tables, as [__init__] reads them. *)
Record AssetPerfomances : Type := {
  _prices : DataFrame;
  _exchanges : DataFrame;
  _currencies : list (string * string);
  _weights : DataFrame
}.

(** The loop shared by the price and the currency return:
    [for i in range(1, len(x))], appending [(x[i] - x[i-1]) / x[i-1]].
    The positions are in range by the bounds of the loop. *)
Definition perfomance_for_asset (x : list F) : list F :=
  map (fun i => fdiv (fsub (nth i x nan) (nth (i - 1) x nan)) (nth (i - 1) x nan))
      (seq 1 (List.length x - 1)).

(** [self._currencies.loc[asset]] *)
Definition loc_currency (self : AssetPerfomances) (asset : string) : result string :=
  match lookup asset (_currencies self) with
  | Some c => Ok c
  | None => Raise KeyError
  end.

Definition try_except_KeyError {A : Type} (body handler : result A) : result A :=
  match body with
  | Raise KeyError => handler
  | r => r
  end.

(** What [squeeze()] makes of a one-column frame: a scalar when the frame
    has a single row, a series otherwise. *)
Inductive squeezed : Type :=
| Scalar (x : F)
| Column (l : list F).

Definition squeeze (col : list F) : squeezed :=
  match col with
  | [x] => Scalar x
  | _ => Column col
  end.

(** [.values]: a NumPy scalar has no such attribute. *)
Definition values (s : squeezed) : result (list F) :=
  match s with
  | Column l => Ok l
  | Scalar _ => Raise AttributeError
  end.

Definition __get_series_by_currency (self : AssetPerfomances) (asset : string)
  : result squeezed :=
  try_except_KeyError
    (column <- loc_currency self asset ;;
     col <- getitem (_exchanges self) column ;;
     Ok (squeeze col))
    (Ok (Column (repeat fone (nrows (_exchanges self))))).

Definition __count_return_prices_for_asset (self : AssetPerfomances) (asset : string)
  : result (list F) :=
  new_prices <- __get_new_index (_prices self) ;;
  col <- getitem new_prices asset ;;
  Ok (perfomance_for_asset (__replace_na_values col)).

(** Replace column [name], or append it when the frame has none. *)
Fixpoint set_column (name : string) (col : list F) (cols : list (string * list F))
  : list (string * list F) :=
  match cols with
  | [] => [(name, col)]
  | c :: t =>
      if String.eqb name (fst c) then (name, col) :: t
      else c :: set_column name col t
  end.

(** The currency return.  [fillna(..., inplace=True)] runs on the column
    of the stored exchange-rate frame, so the filled column is written
    back into the object, which is returned with the series. *)
Definition __count_currency_perfomance_for_asset
           (self : AssetPerfomances) (asset : string)
  : result (list F * AssetPerfomances) :=
  cur_currency <- loc_currency self asset ;;
  if String.eqb cur_currency "USD" then
    Ok (repeat fzero (nrows (_exchanges self) - 1), self)
  else
    col <- getitem (_exchanges self) cur_currency ;;
    let new_exchanges := __replace_na_values col in
    Ok (perfomance_for_asset new_exchanges,
        {| _prices := _prices self;
           _exchanges :=
             {| df_index := df_index (_exchanges self);
                df_columns :=
                  set_column cur_currency new_exchanges
                             (df_columns (_exchanges self)) |};
           _currencies := _currencies self;
           _weights := _weights self |}).

Definition __count_total_perfomance_for_asset
           (self : AssetPerfomances) (asset : string)
  : result (list F) :=
  new_prices <- __get_new_index (_prices self) ;;
  col <- getitem new_prices asset ;;
  let new_prices := __replace_na_values col in
  sq <- __get_series_by_currency self asset ;;
  currency_for_asset <- values sq ;;
  mapM (fun i =>
          c1 <- item currency_for_asset i ;;
          let value1 := fmul c1 (nth i new_prices nan) in
          c2 <- item currency_for_asset (i - 1) ;;
          let value2 := fmul c2 (nth (i - 1) new_prices nan) in
          Ok (fdiv (fsub value1 value2) value2))
       (seq 1 (List.length new_prices - 1)).

(** *** Frames built column by column *)

(** [pd.DataFrame()] *)
Definition empty_frame : DataFrame := {| df_index := []; df_columns := [] |}.

Definition range_index (n : nat) : list date := map Z.of_nat (seq 0 n).

(** A series on [0..m-1] reindexed on [0..n-1]. *)
Definition reindex_range (n : nat) (s : list F) : list F :=
  firstn n s ++ repeat nan (n - List.length s).

(** [df[name] = s] for a series [s] on a default index: a frame without
    rows takes the index of the series, any other frame aligns the
    series to its own rows. *)
Definition setitem (df : DataFrame) (name : string) (s : list F) : DataFrame :=
  if (nrows df =? 0) && negb (List.length s =? 0) then
    {| df_index := range_index (List.length s);
       df_columns :=
         set_column name s
           (map (fun c => (fst c, repeat nan (List.length s))) (df_columns df)) |}
  else
    {| df_index := df_index df;
       df_columns := set_column name (reindex_range (nrows df) s) (df_columns df) |}.

(** [df.index = idx] *)
Definition set_index (df : DataFrame) (idx : list date) : result DataFrame :=
  if nrows df =? List.length idx then
    Ok {| df_index := idx; df_columns := df_columns df |}
  else Raise ValueError.

Fixpoint assign_all (f : string -> result (list F)) (df : DataFrame)
         (cols : list string) : result DataFrame :=
  match cols with
  | [] => Ok df
  | c :: t => s <- f c ;; assign_all f (setitem df c s) t
  end.

Definition _calculate_price_perfomance_for_all_assets (self : AssetPerfomances)
  : result DataFrame :=
  price_perform_df <-
    assign_all (__count_return_prices_for_asset self) empty_frame
               (columns (_prices self)) ;;
  new_prices <- __get_new_index (_prices self) ;;
  set_index price_perform_df (tl (df_index new_prices)).

Fixpoint assign_all_currency (self : AssetPerfomances) (df : DataFrame)
         (cols : list string) : result (DataFrame * AssetPerfomances) :=
  match cols with
  | [] => Ok (df, self)
  | c :: t =>
      r <- __count_currency_perfomance_for_asset self c ;;
      assign_all_currency (snd r) (setitem df c (fst r)) t
  end.

Definition _calculate_currency_perfomance_for_all_assets (self : AssetPerfomances)
  : result (DataFrame * AssetPerfomances) :=
  r <- assign_all_currency self empty_frame (columns (_prices self)) ;;
  new_exchanges <- __get_new_index (_exchanges (snd r)) ;;
  currency_perform_df <- set_index (fst r) (tl (df_index new_exchanges)) ;;
  Ok (currency_perform_df, snd r).

Definition _calculate_total_perfomance_for_all_assets (self : AssetPerfomances)
  : result DataFrame :=
  total_perform_df <-
    assign_all (__count_total_perfomance_for_asset self) empty_frame
               (columns (_prices self)) ;;
  new_prices <- __get_new_index (_prices self) ;;
  set_index total_perform_df (tl (df_index new_prices)).

(** [df.iloc[:-1]] *)
Definition drop_last_row (df : DataFrame) : DataFrame :=
  {| df_index := removelast (df_index df);
     df_columns := map (fun c => (fst c, removelast (snd c))) (df_columns df) |}.

Definition _prepare_weights_df (self : AssetPerfomances) : result DataFrame :=
  new_weights <- __get_new_index (_weights self) ;;
  let filled :=
    {| df_index := df_index new_weights;
       df_columns :=
         map (fun c => (fst c, bfill (ffill (snd c)))) (df_columns new_weights) |} in
  Ok (drop_last_row filled).

(** ** Weight aggregator *)

Record PerfomancesWithWeights : Type := {
  pw_super : AssetPerfomances;
  __rt : DataFrame;
  __crt : DataFrame;
  __trt : DataFrame;
  __weights : DataFrame
}.

(** [PerfomancesWithWeights.__init__], past the reading of the tables:
    the currency step hands the object with its filled exchange rates
    to the steps that follow it. *)
Definition PerfomancesWithWeights_init (self : AssetPerfomances)
  : result PerfomancesWithWeights :=
  rt <- _calculate_price_perfomance_for_all_assets self ;;
  r <- _calculate_currency_perfomance_for_all_assets self ;;
  trt <- _calculate_total_perfomance_for_all_assets (snd r) ;;
  weights <- _prepare_weights_df (snd r) ;;
  Ok {| pw_super := snd r; __rt := rt; __crt := fst r; __trt := trt;
        __weights := weights |}.

(** The columns of a frame on the row labels [idx]: untouched when the
    frame already has these labels, looked up by label otherwise, with
    the missing value where the frame has no such row. *)
Definition reindex_rows (df : DataFrame) (idx : list date) : list (string * list F) :=
  if list_eqb Z.eqb (df_index df) idx then df_columns df
  else map (fun c =>
              (fst c,
               map (fun d =>
                      match positions Z.eqb d (df_index df) with
                      | p :: _ => nth p (snd c) nan
                      | [] => nan
                      end) idx))
           (df_columns df).

Definition column_or_nan (cols : list (string * list F)) (n : nat) (name : string)
  : list F :=
  match lookup name cols with
  | Some col => col
  | None => repeat nan n
  end.

(** [a * b] on two frames: both are aligned on the outer join of their
    row labels and of their column labels, then multiplied cell by cell. *)
Definition mul_frames (a b : DataFrame) : DataFrame :=
  let idx := outer_join Z.eqb Z.ltb (df_index a) (df_index b) in
  let names := outer_join String.eqb String.ltb (columns a) (columns b) in
  let ca := reindex_rows a idx in
  let cb := reindex_rows b idx in
  {| df_index := idx;
     df_columns :=
       map (fun n =>
              (n, map (fun p => fmul (fst p) (snd p))
                      (combine (column_or_nan ca (List.length idx) n)
                               (column_or_nan cb (List.length idx) n))))
           names |}.

(** [df.iloc[i].values] *)
Definition row_values (df : DataFrame) (i : nat) : list F :=
  map (fun c => nth i (snd c) nan) (df_columns df).

(** The builtin [sum]: it starts from [0] and adds from the left. *)
Definition py_sum (l : list F) : F := fold_left fadd l fzero.

Definition according_on_weights (perf weights : DataFrame) : Series :=
  let with_weights := mul_frames perf weights in
  combine (df_index with_weights)
          (map (fun i => py_sum (row_values with_weights i))
               (seq 0 (nrows with_weights))).

Definition _calculate_price_perfomance_according_on_weights
           (self : PerfomancesWithWeights) : Series :=
  according_on_weights (__rt self) (__weights self).

Definition _calculate_currency_perfomance_according_on_weights
           (self : PerfomancesWithWeights) : Series :=
  according_on_weights (__crt self) (__weights self).

Definition _calculate_total_perfomance_according_on_weights
           (self : PerfomancesWithWeights) : Series :=
  according_on_weights (__trt self) (__weights self).

(** ** Compounding engine *)

Record TotalPerfomance : Type := {
  tp_super : PerfomancesWithWeights;
  __res_t : Series;
  __currency_res_t : Series;
  __total_res_t : Series;
  __P : F;
  __CP : F;
  __TP : F
}.

Definition TotalPerfomance_init (tables : AssetPerfomances) : result TotalPerfomance :=
  super <- PerfomancesWithWeights_init tables ;;
  Ok {| tp_super := super;
        __res_t := _calculate_price_perfomance_according_on_weights super;
        __currency_res_t := _calculate_currency_perfomance_according_on_weights super;
        __total_res_t := _calculate_total_perfomance_according_on_weights super;
        __P := fone;
        __CP := fone;
        __TP := fone |}.

(** What [Index.get_loc] returns: an integer position for a label that
    occurs once, a slice or a mask for a label that occurs several
    times. *)
Inductive location : Type :=
| At (n : nat)
| Several.

Definition get_loc (idx : list date) (d : date) : result location :=
  match positions Z.eqb d idx with
  | [] => Raise KeyError
  | [p] => Ok (At p)
  | _ => Ok Several
  end.

Definition __get_index_of_start_date_element (column : Series) (start_date : date)
  : result location :=
  get_loc (s_index column) start_date.

Definition __get_index_of_end_date_element (column : Series) (end_date : date)
  : result location :=
  get_loc (s_index column) end_date.

(** [a[-1]] *)
Definition last_item (a : list F) : result F :=
  match a with
  | [] => Raise IndexError
  | x :: t => Ok (last t x)
  end.

(** The body of the three query loops:
    [perf.append(perf[-1] * (1 + column.iloc[i]))] for each [i]. *)
Fixpoint compound_loop (column : Series) (perf : list F) (todo : list nat)
  : result (list F) :=
  match todo with
  | [] => Ok perf
  | i :: t =>
      prev <- last_item perf ;;
      r <- item (s_values column) i ;;
      compound_loop column (perf ++ [fmul prev (fadd fone r)]) t
  end.

(** The row labels of [column.loc[start_date:end_date]], both labels
    having been located at [s] and [e]. *)
Definition loc_slice (idx : list date) (s e : nat) : list date :=
  firstn (S e - s) (skipn s idx).

(** [pd.Series(data, index=idx)] for a list [data]. *)
Definition make_series (data : list F) (idx : list date) : result Series :=
  if List.length data =? List.length idx then Ok (combine idx data)
  else Raise ValueError.

(** The three queries differ in the series they read and in the seed. *)
Definition compound_range (seed : F) (column : Series) (start_date end_date : date)
  : result Series :=
  start <- __get_index_of_start_date_element column start_date ;;
  end_ <- __get_index_of_end_date_element column end_date ;;
  match start, end_ with
  | At s, At e =>
      perf <- compound_loop column [seed] (seq (S s) (S e - S s)) ;;
      make_series perf (loc_slice (s_index column) s e)
  | _, _ => Raise TypeError
  end.

Definition calculate_asset_performance (self : TotalPerfomance)
           (start_date end_date : date) : result Series :=
  compound_range fone (__res_t self) start_date end_date.

Definition calculate_currency_performance (self : TotalPerfomance)
           (start_date end_date : date) : result Series :=
  compound_range (__CP self) (__currency_res_t self) start_date end_date.

Definition calculate_total_performance (self : TotalPerfomance)
           (start_date end_date : date) : result Series :=
  compound_range (__TP self) (__total_res_t self) start_date end_date.

(** ** Reference definitions

    The properties below are phrased against these definitions, which
    follow the wording of the specification rather than the code. *)

(** Gap filling: the last valid value at or before position [t]; failing
    that, the first valid value of the column; failing that, the column
    has no valid value and keeps what it holds. *)
Definition last_valid_upto (l : list F) (t : nat) : option F :=
  first_valid (rev (firstn (S t) l)).

Definition gap_filled (l : list F) (t : nat) : F :=
  match last_valid_upto l t with
  | Some v => v
  | None =>
      match first_valid l with
      | Some v => v
      | None => nth t l nan
      end
  end.

(** The exchange rates that [__get_series_by_currency] hands to the total
    return, one per ROW of the stored exchange-rate table: the column of
    the asset's currency, and the constant [1] when the asset has no
    known currency or the table has no such column (the base currency is
    not a column of the table). *)
Definition applicable_rate (self : AssetPerfomances) (asset : string) : list F :=
  match lookup asset (_currencies self) with
  | Some c =>
      match lookup c (df_columns (_exchanges self)) with
      | Some col => col
      | None => repeat fone (nrows (_exchanges self))
      end
  | None => repeat fone (nrows (_exchanges self))
  end.

(** The product that the loop of [__count_total_perfomance_for_asset]
    forms at index [i]: [self.__currency_for_asset[i] * self.__new_prices[i]],
    the cell at ROW POSITION [i] of the stored exchange rates times the
    gap-filled price of calendar day [i].  The rate is read by position,
    not looked up by date. *)
Definition value_at_row (rate price : list F) (i : nat) : F :=
  fmul (nth i rate nan) (gap_filled price i).

(** The exchange rate that applies to an asset on the calendar day [d],
    in the words of the specification: [1] when the asset's currency is
    the base currency or no column of the exchange-rate table, and the
    rate of that currency on the row dated [d] otherwise. *)
Definition rate_on_day (self : AssetPerfomances) (asset : string) (d : date) : F :=
  match lookup asset (_currencies self) with
  | Some c =>
      if String.eqb c "USD" then fone
      else match lookup c (df_columns (_exchanges self)) with
           | Some col =>
               take col (hd_error (positions Z.eqb d (df_index (_exchanges self))))
           | None => fone
           end
  | None => fone
  end.

(** The value of an asset in the base currency on day [t] of the
    normalized calendar [days], in the words of the specification: the
    gap-filled price of that day times the exchange rate of that day. *)
Definition value_on_day (self : AssetPerfomances) (asset : string)
           (days : list date) (price : list F) (t : nat) : F :=
  fmul (gap_filled price t) (rate_on_day self asset (nth t days 0%Z)).

(** The total return of day [t > 0] in the words of the specification. *)
Definition total_return_on_day (self : AssetPerfomances) (asset : string)
           (days : list date) (price : list F) (t : nat) : F :=
  fdiv (fsub (value_on_day self asset days price t)
             (value_on_day self asset days price (t - 1)))
       (value_on_day self asset days price (t - 1)).

(** The running products [seed], [seed * (1 + r1)], ... *)
Fixpoint cumulative (seed : F) (rs : list F) : list F :=
  seed :: match rs with
          | [] => []
          | r :: t => cumulative (fmul seed (fadd fone r)) t
          end.

(** The product of [1 + r[k]] for [k] from [s + 1] to [i], taken from the
    left and starting from [1]. *)
Definition growth_product (r : list F) (s i : nat) : F :=
  fold_left (fun acc k => fmul acc (fadd fone (nth k r nan))) (seq (S s) (i - s)) fone.

(** A compounded series over positions [s..e] of a return series. *)
Definition compounds (column : Series) (s e : nat) (out : Series) : Prop :=
  s_index out = loc_slice (s_index column) s e /\
  List.length out = S (e - s) /\
  nth 0 (s_values out) nan = fone /\
  (forall i, s < i <= e ->
     nth (i - s) (s_values out) nan =
     fmul (nth (i - s - 1) (s_values out) nan)
          (fadd fone (nth i (s_values column) nan))) /\
  (forall i, s <= i <= e ->
     nth (i - s) (s_values out) nan = growth_product (s_values column) s i).

(** The cell of column [name] on the row labelled [d], and the missing
    value when the frame has no such column or no such row. *)
Definition cell (df : DataFrame) (name : string) (d : date) : F :=
  match lookup name (df_columns df) with
  | Some col =>
      match positions Z.eqb d (df_index df) with
      | p :: _ => nth p col nan
      | [] => nan
      end
  | None => nan
  end.

(** The sum over the assets of either frame of return times weight on
    day [d]. *)
Definition weighted_sum (perf weights : DataFrame) (d : date) : F :=
  py_sum (map (fun name => fmul (cell perf name d) (cell weights name d))
              (outer_join String.eqb String.ltb (columns perf) (columns weights))).

(** What is asked of a query operation [query] reading the return series
    [column]. *)

(** Every range whose ends resolve to positions [s <= e] is compounded. *)
Definition compounds_every_range (column : Series)
           (query : date -> date -> result Series) : Prop :=
  forall start_date end_date s e,
    get_loc (s_index column) start_date = Ok (At s) ->
    get_loc (s_index column) end_date = Ok (At e) ->
    s <= e ->
    exists out, query start_date end_date = Ok out /\ compounds column s e out.

(** A date missing from the calendar is a [KeyError], an inverted range a
    [ValueError]. *)
Definition rejects_bad_ranges (column : Series)
           (query : date -> date -> result Series) : Prop :=
  forall start_date end_date,
    (~ In start_date (s_index column) \/ ~ In end_date (s_index column) ->
     query start_date end_date = Raise KeyError) /\
    (forall s e,
        get_loc (s_index column) start_date = Ok (At s) ->
        get_loc (s_index column) end_date = Ok (At e) ->
        e < s ->
        query start_date end_date = Raise ValueError).

(** A range of one day yields the single entry [1] on that day. *)
Definition single_day_is_one (column : Series)
           (query : date -> date -> result Series) : Prop :=
  forall d s,
    get_loc (s_index column) d = Ok (At s) ->
    query d d = Ok [(d, fone)].

(** Every column of a frame has one cell per row. *)
Definition rectangular (df : DataFrame) : Prop :=
  Forall (fun c => List.length (snd c) = nrows df) (df_columns df).

(** The frame that holds one series of length [n] for each name of
    [done], as the column-by-column construction builds it. *)
Definition frame_of (s : string -> list F) (n : nat) (done : list string) : DataFrame :=
  {| df_index := if (List.length done =? 0) || (n =? 0) then [] else range_index n;
     df_columns := map (fun c => (c, s c)) done |}.

(** Two objects that differ at most in the cells of their exchange rates:
    same prices, currencies and weights, same exchange-rate dates, and
    exchange-rate columns of the same names and lengths. *)
Definition same_shape (a b : AssetPerfomances) : Prop :=
  _prices a = _prices b /\
  _currencies a = _currencies b /\
  _weights a = _weights b /\
  df_index (_exchanges a) = df_index (_exchanges b) /\
  forall name,
    option_map (@List.length F) (lookup name (df_columns (_exchanges a))) =
    option_map (@List.length F) (lookup name (df_columns (_exchanges b))).

(** An asset whose currency is the base currency or a column of the
    exchange-rate table. *)
Definition known_currency (self : AssetPerfomances) (asset : string) : Prop :=
  exists c, lookup asset (_currencies self) = Some c /\
            (c = "USD"%string \/
             exists col, lookup c (df_columns (_exchanges self)) = Some col).

(** The dates of [idx] from [start_date] to [end_date], both included. *)
Definition dates_between (start_date end_date : date) (idx : list date) : list date :=
  filter (fun d => (start_date <=? d)%Z && (d <=? end_date)%Z) idx.

(** A query operation that answers by dates: for two dates of the
    calendar, the series over the dates from the first to the second when
    they are in order, and [ValueError] when they are not. *)
Definition answers_by_dates (column : Series)
           (query : date -> date -> result Series) : Prop :=
  forall start_date end_date,
    In start_date (s_index column) ->
    In end_date (s_index column) ->
    ((start_date <= end_date)%Z ->
     exists out,
       query start_date end_date = Ok out /\
       s_index out = dates_between start_date end_date (s_index column)) /\
    ((end_date < start_date)%Z ->
     query start_date end_date = Raise ValueError).

(** Dates of a raw table in strictly increasing order. *)
Fixpoint increasing (l : list date) : Prop :=
  match l with
  | [] => True
  | x :: t => (forall y, In y t -> (x < y)%Z) /\ increasing t
  end.

End Model.

(** ** Exact rationals with a missing value

    An interpretation of the arithmetic on which the model runs: [None] is
    the missing value, which every operation propagates; a division by zero
    yields it as well. *)

Definition num : Type := option Q.

Definition lift2 (f : Q -> Q -> Q) (x y : num) : num :=
  match x, y with
  | Some a, Some b => Some (Qred (f a b))
  | _, _ => None
  end.

Definition num_div (x y : num) : num :=
  match y with
  | Some b => if Qeq_bool b 0 then None else lift2 Qdiv x y
  | None => None
  end.

#[export] Instance num_ops : FloatOps num := {|
  fzero := Some 0%Q;
  fone := Some 1%Q;
  nan := None;
  fadd := lift2 Qplus;
  fsub := lift2 Qminus;
  fmul := lift2 Qmult;
  fdiv := num_div;
  isna := fun x => match x with Some _ => false | None => true end
|}.

Definition q (n d : Z) : num := Some (Qred (Qmake n (Z.to_pos d))).

(** ** Sample tables *)

Open Scope string_scope.

(** Two assets priced on days 0, 2 and 3; asset A is quoted in EUR, asset B
    in the base currency; exchange rates are daily with one missing cell. *)
Definition sample_tables : AssetPerfomances (F := num) := {|
  _prices :=
    {| df_index := [0; 2; 3]%Z;
       df_columns := [("A", [q 100 1; q 110 1; q 121 1]);
                      ("B", [None; q 50 1; q 55 1])] |};
  _exchanges :=
    {| df_index := [0; 1; 2; 3]%Z;
       df_columns := [("EUR", [q 1 1; None; q 11 10; q 12 10])] |};
  _currencies := [("A", "EUR"); ("B", "USD")];
  _weights :=
    {| df_index := [0; 2; 3]%Z;
       df_columns := [("A", [q 1 2; q 1 2; q 1 4]);
                      ("B", [q 1 2; q 1 2; q 3 4])] |}
|}.

Definition blank_frame : DataFrame (F := num) := {| df_index := []; df_columns := [] |}.

(** The object [TotalPerfomance()] builds from the sample tables. *)
Definition sample_object : TotalPerfomance (F := num) :=
  Eval vm_compute in
    match TotalPerfomance_init sample_tables with
    | Ok self => self
    | Raise _ =>
        {| tp_super :=
             {| pw_super := sample_tables; __rt := blank_frame; __crt := blank_frame;
                __trt := blank_frame; __weights := blank_frame |};
           __res_t := []; __currency_res_t := []; __total_res_t := [];
           __P := None; __CP := None; __TP := None |}
    end.

(** Asset A is quoted in a currency the exchange-rate table does not have. *)
Definition unknown_currency_tables : AssetPerfomances (F := num) := {|
  _prices :=
    {| df_index := [0; 1; 2]%Z;
       df_columns := [("A", [q 100 1; q 110 1; q 121 1])] |};
  _exchanges :=
    {| df_index := [0; 1; 2]%Z;
       df_columns := [("EUR", [q 1 1; q 11 10; q 12 10])] |};
  _currencies := [("A", "GBP")];
  _weights :=
    {| df_index := [0; 1; 2]%Z; df_columns := [("A", [q 1 1; q 1 1; q 1 1])] |}
|}.

(** The exchange rates skip day 1. *)
Definition gappy_exchange_tables : AssetPerfomances (F := num) := {|
  _prices :=
    {| df_index := [0; 1; 2]%Z;
       df_columns := [("A", [q 100 1; q 110 1; q 121 1])] |};
  _exchanges :=
    {| df_index := [0; 2]%Z; df_columns := [("EUR", [q 1 1; q 12 10])] |};
  _currencies := [("A", "EUR")];
  _weights :=
    {| df_index := [0; 1; 2]%Z; df_columns := [("A", [q 1 1; q 1 1; q 1 1])] |}
|}.

(** Prices and weights observed on the same three days. *)
Definition same_calendar_tables : AssetPerfomances (F := num) := {|
  _prices :=
    {| df_index := [0; 1; 2]%Z;
       df_columns := [("A", [q 100 1; q 110 1; q 121 1])] |};
  _exchanges :=
    {| df_index := [0; 1; 2]%Z; df_columns := [("EUR", [q 1 1; q 1 1; q 1 1])] |};
  _currencies := [("A", "USD")];
  _weights :=
    {| df_index := [0; 1; 2]%Z; df_columns := [("A", [q 1 1; q 1 1; q 1 1])] |}
|}.

(** Prices cover days 0 to 4, weights only days 0 and 1. *)
Definition short_weights_tables : AssetPerfomances (F := num) := {|
  _prices :=
    {| df_index := [0; 1; 2; 3; 4]%Z;
       df_columns := [("A", [q 100 1; q 110 1; q 121 1; q 121 1; q 121 1])] |};
  _exchanges :=
    {| df_index := [0; 1; 2; 3; 4]%Z;
       df_columns := [("EUR", [q 1 1; q 1 1; q 1 1; q 1 1; q 1 1])] |};
  _currencies := [("A", "USD")];
  _weights :=
    {| df_index := [0; 1]%Z; df_columns := [("A", [q 1 1; q 1 1])] |}
|}.

(** Prices that start two days after the exchange rates: the price
    calendar is days 2 and 3, the exchange-rate table has a row for each
    of the days 0 to 3. *)
Definition late_prices_tables : AssetPerfomances (F := num) := {|
  _prices :=
    {| df_index := [2; 3]%Z; df_columns := [("A", [q 100 1; q 110 1])] |};
  _exchanges :=
    {| df_index := [0; 1; 2; 3]%Z;
       df_columns := [("EUR", [q 1 1; q 2 1; q 4 1; q 4 1])] |};
  _currencies := [("A", "EUR")];
  _weights :=
    {| df_index := [2; 3]%Z; df_columns := [("A", [q 1 1; q 1 1])] |}
|}.

(** An asset of the base currency, with three days of prices against two
    days of exchange rates. *)
Definition base_currency_tables : AssetPerfomances (F := num) := {|
  _prices :=
    {| df_index := [0; 1; 2]%Z;
       df_columns := [("A", [q 100 1; q 110 1; q 121 1])] |};
  _exchanges :=
    {| df_index := [0; 1]%Z; df_columns := [("EUR", [q 1 1; q 11 10])] |};
  _currencies := [("A", "USD")];
  _weights :=
    {| df_index := [0; 1; 2]%Z; df_columns := [("A", [q 1 1; q 1 1; q 1 1])] |}
|}.

(** Three days of prices against two days of exchange rates. *)
Definition short_exchange_tables : AssetPerfomances (F := num) := {|
  _prices :=
    {| df_index := [0; 1; 2]%Z;
       df_columns := [("A", [q 100 1; q 110 1; q 121 1])] |};
  _exchanges :=
    {| df_index := [0; 1]%Z; df_columns := [("EUR", [q 1 1; q 11 10])] |};
  _currencies := [("A", "EUR")];
  _weights :=
    {| df_index := [0; 1; 2]%Z; df_columns := [("A", [q 1 1; q 1 1; q 1 1])] |}
|}.

(** A single day of prices and of exchange rates. *)
Definition single_day_tables : AssetPerfomances (F := num) := {|
  _prices := {| df_index := [0]%Z; df_columns := [("A", [q 100 1])] |};
  _exchanges := {| df_index := [0]%Z; df_columns := [("EUR", [q 1 1])] |};
  _currencies := [("A", "EUR")];
  _weights := {| df_index := [0]%Z; df_columns := [("A", [q 1 1])] |}
|}.

(** Tables without a single row. *)
Definition empty_tables : AssetPerfomances (F := num) := {|
  _prices := {| df_index := []; df_columns := [("A", [])] |};
  _exchanges := {| df_index := []; df_columns := [("EUR", [])] |};
  _currencies := [("A", "EUR")];
  _weights := {| df_index := []; df_columns := [("A", [])] |}
|}.

Definition blank_object : PerfomancesWithWeights (F := num) :=
  {| pw_super := sample_tables; __rt := blank_frame; __crt := blank_frame;
     __trt := blank_frame; __weights := blank_frame |}.

(** The return frames and the prepared weights of two of the samples. *)
Definition same_calendar_object : PerfomancesWithWeights (F := num) :=
  Eval vm_compute in
    match PerfomancesWithWeights_init same_calendar_tables with
    | Ok self => self
    | Raise _ => blank_object
    end.

Definition short_weights_object : PerfomancesWithWeights (F := num) :=
  Eval vm_compute in
    match PerfomancesWithWeights_init short_weights_tables with
    | Ok self => self
    | Raise _ => blank_object
    end.


Close Scope string_scope.

(** * Properties *)

(** ** Loops and lists *)

Lemma mapM_pure (A B : Type) (f : A -> result B) (g : A -> B) (l : list A) :
  (forall x, In x l -> f x = Ok (g x)) -> mapM f l = Ok (map g l).
Proof.
  induction l as [|x l IH]; intros Hf; simpl.
  - reflexivity.
  - rewrite (Hf x (or_introl eq_refl)). simpl.
    rewrite IH by (intros y Hy; apply Hf; right; exact Hy).
    reflexivity.
Qed.

Lemma item_in_range (A : Type) (a : list A) (i : nat) (d : A) :
  i < List.length a -> item a i = Ok (nth i a d).
Proof.
  intros Hi. unfold item. rewrite (nth_error_nth' a d Hi). reflexivity.
Qed.

Lemma item_out_of_range (A : Type) (a : list A) (i : nat) :
  List.length a <= i -> item a i = Raise IndexError.
Proof.
  intros Hi. unfold item.
  destruct (nth_error a i) eqn:E; [|reflexivity].
  apply nth_error_None in Hi. congruence.
Qed.

Lemma nth_map_seq (A : Type) (f : nat -> A) (a n k : nat) (d : A) :
  k < n -> nth k (map f (seq a n)) d = f (a + k).
Proof.
  intros Hk.
  rewrite (nth_indep _ d (f 0)) by (rewrite length_map, length_seq; exact Hk).
  rewrite map_nth, seq_nth by exact Hk. reflexivity.
Qed.

Lemma skipn_cons_nth (A : Type) (l : list A) (a : nat) (d : A) :
  a < List.length l -> skipn a l = nth a l d :: skipn (S a) l.
Proof.
  revert a. induction l as [|x l IH]; intros a Ha; simpl in Ha.
  - lia.
  - destruct a as [|a]; [reflexivity|].
    simpl. apply IH. lia.
Qed.

Lemma map_fst_combine (A B : Type) (l : list A) (l' : list B) :
  List.length l = List.length l' -> map fst (combine l l') = l.
Proof.
  revert l'. induction l as [|x l IH]; intros [|y l'] Hlen; simpl in *;
    try reflexivity; try discriminate.
  f_equal. apply IH. lia.
Qed.

Lemma map_snd_combine (A B : Type) (l : list A) (l' : list B) :
  List.length l = List.length l' -> map snd (combine l l') = l'.
Proof.
  revert l'. induction l as [|x l IH]; intros [|y l'] Hlen; simpl in *;
    try reflexivity; try discriminate.
  f_equal. apply IH. lia.
Qed.

Lemma nth_map_combine (A B C : Type) (f : A -> B -> C) (l : list A) (l' : list B)
      (da : A) (db : B) (dc : C) (i : nat) :
  i < List.length l -> i < List.length l' ->
  nth i (map (fun p => f (fst p) (snd p)) (combine l l')) dc = f (nth i l da) (nth i l' db).
Proof.
  revert l' i. induction l as [|x l IH]; intros [|y l'] i Hl Hl'; simpl in *; try lia.
  destruct i as [|i]; [reflexivity|]. apply IH; lia.
Qed.

Lemma combine_map_seq (A B : Type) (idx : list A) (g : nat -> B) (h : A -> B) (d : A) :
  (forall i, i < List.length idx -> g i = h (nth i idx d)) ->
  combine idx (map g (seq 0 (List.length idx))) = map (fun x => (x, h x)) idx.
Proof.
  assert (G : forall (l : list A) (n : nat) (k : nat -> B),
             (forall i, i < List.length l -> k (n + i) = h (nth i l d)) ->
             combine l (map k (seq n (List.length l))) = map (fun x => (x, h x)) l).
  { induction l as [|x l IH]; intros n k Hk; simpl.
    - reflexivity.
    - f_equal.
      + f_equal. rewrite <- (Nat.add_0_r n). apply (Hk 0). simpl. lia.
      + apply IH. intros i Hi. rewrite Nat.add_succ_comm. apply (Hk (S i)). simpl. lia. }
  intros Hg. apply G. exact Hg.
Qed.

Section Facts.
Context {F : Type} `{FloatOps F}.

(** ** Gap filling *)

Lemma first_valid_app (a b : list F) :
  first_valid (a ++ b) =
  match first_valid a with
  | Some v => Some v
  | None => first_valid b
  end.
Proof.
  unfold first_valid. induction a as [|x a IH]; simpl.
  - reflexivity.
  - destruct (negb (isna x)); [reflexivity | exact IH].
Qed.

Lemma first_valid_is_valid (l : list F) (v : F) :
  first_valid l = Some v -> isna v = false.
Proof.
  intros Hv. apply find_some in Hv. destruct Hv as [_ Hv].
  apply negb_true_iff in Hv. exact Hv.
Qed.

Lemma first_valid_none (l : list F) (x : F) :
  first_valid l = None -> In x l -> isna x = true.
Proof.
  intros Hn Hx. apply (find_none _ _ Hn) in Hx.
  apply negb_false_iff in Hx. exact Hx.
Qed.

Lemma last_valid_upto_cons (x : F) (l : list F) (t : nat) :
  last_valid_upto (x :: l) (S t) =
  match last_valid_upto l t with
  | Some v => Some v
  | None => if isna x then None else Some x
  end.
Proof.
  unfold last_valid_upto.
  change (firstn (S (S t)) (x :: l)) with (x :: firstn (S t) l).
  change (rev (x :: firstn (S t) l)) with (rev (firstn (S t) l) ++ [x]).
  rewrite first_valid_app.
  destruct (first_valid (rev (firstn (S t) l))); [reflexivity|].
  unfold first_valid. simpl. destruct (isna x); reflexivity.
Qed.

Lemma ffill_from_length (l : list F) (prev : option F) :
  List.length (ffill_from prev l) = List.length l.
Proof.
  revert prev. induction l as [|x l IH]; intros prev; simpl.
  - reflexivity.
  - destruct (isna x); [destruct prev|]; simpl; rewrite IH; reflexivity.
Qed.

Lemma bfill_length (l : list F) : List.length (bfill l) = List.length l.
Proof.
  induction l as [|x l IH]; simpl; [reflexivity | rewrite IH; reflexivity].
Qed.

Lemma replace_na_values_length (l : list F) :
  List.length (__replace_na_values l) = List.length l.
Proof.
  unfold __replace_na_values, ffill.
  rewrite bfill_length, ffill_from_length. reflexivity.
Qed.

Lemma ffill_from_nth (l : list F) (prev : option F) (t : nat) :
  t < List.length l ->
  nth t (ffill_from prev l) nan =
  match last_valid_upto l t with
  | Some v => v
  | None =>
      match prev with
      | Some v => v
      | None => nth t l nan
      end
  end.
Proof.
  revert prev t. induction l as [|x l IH]; intros prev t Ht; simpl in Ht.
  - lia.
  - destruct t as [|t].
    + unfold last_valid_upto, first_valid. simpl.
      destruct (isna x); [destruct prev|]; reflexivity.
    + rewrite last_valid_upto_cons. simpl ffill_from.
      destruct (isna x) eqn:Ex.
      * destruct prev as [v|]; simpl nth; rewrite IH by lia;
          destruct (last_valid_upto l t); reflexivity.
      * simpl nth. rewrite IH by lia.
        destruct (last_valid_upto l t); reflexivity.
Qed.

Lemma bfill_nth (l : list F) (t : nat) :
  t < List.length l ->
  nth t (bfill l) nan =
  if isna (nth t l nan) then
    match first_valid (skipn (S t) l) with
    | Some v => v
    | None => nth t l nan
    end
  else nth t l nan.
Proof.
  revert t. induction l as [|x l IH]; intros t Ht; simpl in Ht.
  - lia.
  - destruct t as [|t].
    + reflexivity.
    + simpl bfill. simpl nth. rewrite IH by lia. reflexivity.
Qed.

(** Forward filling leaves the leading missing values in place and does
    not change which value is the first valid one. *)
Lemma first_valid_skip_ffill (l : list F) (k : nat) :
  (forall x, In x (firstn k l) -> isna x = true) ->
  first_valid (skipn k (ffill l)) = first_valid l.
Proof.
  unfold ffill. revert k. induction l as [|x l IH]; intros k Hk.
  - destruct k; reflexivity.
  - destruct k as [|k].
    + clear Hk IH.
      assert (G : forall (m : list F),
                 first_valid (ffill_from None m) = first_valid m).
      { induction m as [|y m IHm]; simpl; [reflexivity|].
        destruct (isna y) eqn:Ey; unfold first_valid in *; simpl; rewrite Ey; simpl;
          [exact IHm | reflexivity]. }
      exact (G (x :: l)).
    + assert (Ex : isna x = true) by (apply Hk; left; reflexivity).
      simpl ffill_from. rewrite Ex. simpl skipn.
      rewrite IH by (intros y Hy; apply Hk; right; exact Hy).
      unfold first_valid. simpl. rewrite Ex. reflexivity.
Qed.

(** The two fills of the code compute the gap filling of the specification. *)
Lemma replace_na_values_nth (l : list F) (t : nat) :
  t < List.length l ->
  nth t (__replace_na_values l) nan = gap_filled l t.
Proof.
  intros Ht. unfold __replace_na_values, gap_filled.
  rewrite bfill_nth by (unfold ffill; rewrite ffill_from_length; exact Ht).
  unfold ffill at 1 3 4. rewrite ffill_from_nth by exact Ht.
  destruct (last_valid_upto l t) as [v|] eqn:Ev.
  - unfold last_valid_upto in Ev.
    rewrite (first_valid_is_valid _ Ev). reflexivity.
  - assert (Hall : forall x, In x (firstn (S t) l) -> isna x = true).
    { intros x Hx. apply (first_valid_none _ _ Ev). apply in_rev in Hx. exact Hx. }
    assert (Hin : In (nth t l nan) (firstn (S t) l)).
    { replace (nth t l nan) with (nth t (firstn (S t) l) nan).
      - apply nth_In. rewrite length_firstn. lia.
      - rewrite nth_firstn. destruct (Nat.ltb_spec t (S t)); [reflexivity | lia]. }
    rewrite (Hall _ Hin).
    rewrite (first_valid_skip_ffill l (S t) Hall). reflexivity.
Qed.

End Facts.

(** ** Calendar normalization *)

Lemma positions_from_absent (n : nat) (x : date) (l : list date) :
  ~ In x l -> positions_from Z.eqb n x l = [].
Proof.
  revert n. induction l as [|y l IH]; intros n Hx; simpl.
  - reflexivity.
  - destruct (Z.eqb_spec x y) as [->|_].
    + exfalso. apply Hx. left. reflexivity.
    + apply IH. intros Hin. apply Hx. right. exact Hin.
Qed.

Lemma positions_from_present (n : nat) (x : date) (l : list date) :
  In x l -> positions_from Z.eqb n x l <> [].
Proof.
  revert n. induction l as [|y l IH]; intros n Hx; simpl.
  - destruct Hx.
  - destruct (Z.eqb_spec x y) as [->|Hne].
    + discriminate.
    + apply IH. destruct Hx as [Hx|Hx]; [congruence | exact Hx].
Qed.

Lemma positions_from_spec (n : nat) (x : date) (l : list date) (p : nat) :
  In p (positions_from Z.eqb n x l) ->
  n <= p /\ p - n < List.length l /\ nth (p - n) l 0%Z = x.
Proof.
  revert n. induction l as [|y l IH]; intros n Hp; simpl in Hp.
  - destruct Hp.
  - destruct (Z.eqb_spec x y) as [->|Hne].
    + destruct Hp as [<-|Hp].
      * rewrite Nat.sub_diag. simpl. repeat split; lia.
      * apply IH in Hp. destruct Hp as (H1 & H2 & H3).
        replace (p - n) with (S (p - S n)) by lia. simpl. repeat split; lia.
    + apply IH in Hp. destruct Hp as (H1 & H2 & H3).
      replace (p - n) with (S (p - S n)) by lia. simpl. repeat split; lia.
Qed.

Lemma positions_from_unique (n : nat) (x : date) (l : list date) :
  NoDup l -> positions_from Z.eqb n x l = [] \/
             exists p, positions_from Z.eqb n x l = [p].
Proof.
  intros Hnd. revert n. induction Hnd as [|y l Hy Hnd IH]; intros n; simpl.
  - left. reflexivity.
  - destruct (Z.eqb_spec x y) as [->|_].
    + right. exists n. rewrite positions_from_absent by exact Hy. reflexivity.
    + apply IH.
Qed.

Lemma positions_from_nth (n : nat) (l : list date) (i : nat) :
  NoDup l -> i < List.length l ->
  positions_from Z.eqb n (nth i l 0%Z) l = [n + i].
Proof.
  intros Hnd. revert n i. induction Hnd as [|y l Hy Hnd IH]; intros n i Hi; simpl in Hi.
  - lia.
  - destruct i as [|i]; simpl.
    + rewrite Z.eqb_refl, Nat.add_0_r.
      rewrite positions_from_absent by exact Hy. reflexivity.
    + destruct (Z.eqb_spec (nth i l 0%Z) y) as [E|_].
      * exfalso. apply Hy. rewrite <- E. apply nth_In. lia.
      * rewrite IH by lia. f_equal. lia.
Qed.

Lemma increasing_NoDup (l : list date) : increasing l -> NoDup l.
Proof.
  induction l as [|x l IH]; intros Hinc.
  - constructor.
  - destruct Hinc as [Hx Hl]. constructor.
    + intros Hin. specialize (Hx x Hin). lia.
    + apply IH. exact Hl.
Qed.

(** On an index without repeated dates the left join keeps one row per day. *)
Lemma join_rows_unique (days idx : list date) :
  NoDup idx ->
  join_rows days idx = map (fun d => (d, hd_error (positions Z.eqb d idx))) days.
Proof.
  intros Hnd. unfold join_rows, positions.
  rewrite (flat_map_ext _ (fun d => [(d, hd_error (positions_from Z.eqb 0 d idx))])).
  - induction days as [|d days IH]; simpl; [reflexivity | rewrite IH; reflexivity].
  - intros d.
    destruct (positions_from_unique 0 d Hnd) as [-> | [p ->]]; reflexivity.
Qed.

Lemma last_cons_default (A : Type) (x : A) (l : list A) : last (x :: l) x = last l x.
Proof.
  destruct l as [|y l]; reflexivity.
Qed.

Lemma date_range_length (a b : date) :
  List.length (date_range a b) = Z.to_nat (b - a + 1).
Proof.
  unfold date_range. rewrite length_map, length_seq. reflexivity.
Qed.

Lemma date_range_nth (a b : date) (k : nat) :
  k < List.length (date_range a b) ->
  nth k (date_range a b) 0%Z = (a + Z.of_nat k)%Z.
Proof.
  rewrite date_range_length. intros Hk. unfold date_range.
  rewrite nth_map_seq by exact Hk. reflexivity.
Qed.

Lemma lookup_in_columns (A : Type) (name : string) (cols : list (string * A)) :
  In name (map fst cols) -> exists col, lookup name cols = Some col.
Proof.
  induction cols as [|[k v] cols IH]; intros Hin; simpl in *.
  - destruct Hin.
  - destruct (String.eqb_spec name k) as [_|Hne].
    + exists v. reflexivity.
    + apply IH. destruct Hin as [Hin|Hin]; [congruence | exact Hin].
Qed.

Lemma lookup_map_columns (A B : Type) (g : A -> B) (name : string)
      (cols : list (string * A)) :
  lookup name (map (fun c => (fst c, g (snd c))) cols) =
  option_map g (lookup name cols).
Proof.
  induction cols as [|[k v] cols IH]; simpl.
  - reflexivity.
  - destruct (String.eqb name k); [reflexivity | exact IH].
Qed.

Lemma last_cons (A : Type) (l : list A) (x y : A) : last (y :: l) x = last l y.
Proof.
  revert x y. induction l as [|z l IH]; intros x y; [reflexivity|].
  change (last (y :: z :: l) x) with (last (z :: l) x).
  rewrite (IH x z), (IH y z). reflexivity.
Qed.

Lemma increasing_last (l : list date) (x d : date) :
  increasing (x :: l) -> In d (x :: l) -> (x <= d <= last l x)%Z.
Proof.
  revert x d. induction l as [|y l IH]; intros x d Hinc Hd.
  - destruct Hd as [<-|[]]. simpl. lia.
  - destruct Hinc as [Hx Hl].
    rewrite last_cons.
    assert (Hy : (y <= last l y)%Z) by (apply (IH y y Hl); left; reflexivity).
    destruct Hd as [<-|Hd].
    + specialize (Hx y (or_introl eq_refl)). lia.
    + specialize (Hx d Hd). destruct (IH y d Hl Hd). lia.
Qed.

Section ReturnCalculator.
Context {F : Type} `{FloatOps F}.

(** The normalized frame of a table whose dates strictly increase: one
    row per calendar day from the first to the last date, each column
    holding the observation of that day or the missing value. *)
Lemma get_new_index_increasing (df : DataFrame) (f : date) (rest : list date) :
  df_index df = f :: rest ->
  increasing (f :: rest) ->
  __get_new_index df =
  Ok {| df_index := date_range f (last rest f);
        df_columns :=
          map (fun c =>
                 (fst c,
                  (fun raw =>
                     map (fun d => take raw (hd_error (positions Z.eqb d (f :: rest))))
                         (date_range f (last rest f))) (snd c)))
              (df_columns df) |}.
Proof.
  intros Hidx Hinc. unfold __get_new_index. rewrite Hidx.
  rewrite last_cons_default.
  rewrite (join_rows_unique _ (increasing_NoDup _ Hinc)).
  rewrite map_map. simpl. rewrite map_id.
  f_equal. f_equal. apply map_ext. intros c.
  rewrite map_map. reflexivity.
Qed.

Lemma perfomance_for_asset_length (x : list F) :
  List.length (perfomance_for_asset x) = List.length x - 1.
Proof.
  unfold perfomance_for_asset. rewrite length_map, length_seq. reflexivity.
Qed.

Lemma perfomance_for_asset_nth (x : list F) (t : nat) :
  0 < t < List.length x ->
  nth (t - 1) (perfomance_for_asset x) nan =
  fdiv (fsub (nth t x nan) (nth (t - 1) x nan)) (nth (t - 1) x nan).
Proof.
  intros Ht. unfold perfomance_for_asset.
  rewrite nth_map_seq by lia.
  replace (1 + (t - 1)) with t by lia. reflexivity.
Qed.

(** C2. For an asset of the price table, whose dates strictly increase,
    the normalized calendar runs day by day from the first to the last
    observed date; the price observed on a date sits on the row of that
    date and the days without observation are missing; and the price
    return of every day [t > 0] is [(price[t] - price[t-1]) / price[t-1]]
    on these prices gap-filled forward, then backward. *)
Theorem price_return_formula (self : AssetPerfomances) (asset : string)
        (f : date) (rest : list date) (raw : list F) :
  df_index (_prices self) = f :: rest ->
  increasing (f :: rest) ->
  lookup asset (df_columns (_prices self)) = Some raw ->
  exists cal col perf,
    __get_new_index (_prices self) = Ok cal /\
    df_index cal = date_range f (last rest f) /\
    (forall k, k < nrows cal -> nth k (df_index cal) 0%Z = (f + Z.of_nat k)%Z) /\
    getitem cal asset = Ok col /\
    List.length col = nrows cal /\
    (forall p, p < List.length (f :: rest) ->
       nth (Z.to_nat (nth p (f :: rest) 0%Z - f)) col nan = nth p raw nan) /\
    (forall k, k < nrows cal -> ~ In (f + Z.of_nat k)%Z (f :: rest) ->
       nth k col nan = nan) /\
    __count_return_prices_for_asset self asset = Ok perf /\
    List.length perf = nrows cal - 1 /\
    forall t, 0 < t < nrows cal ->
      nth (t - 1) perf nan =
      fdiv (fsub (gap_filled col t) (gap_filled col (t - 1)))
           (gap_filled col (t - 1)).
Proof.
  intros Hidx Hinc Hraw.
  pose proof (get_new_index_increasing _ Hidx Hinc) as Hcal.
  set (days := date_range f (last rest f)) in *.
  set (col := map (fun d => take raw (hd_error (positions Z.eqb d (f :: rest)))) days).
  assert (Hget : forall cal, __get_new_index (_prices self) = Ok cal ->
                             getitem cal asset = Ok col).
  { intros cal Hc. rewrite Hcal in Hc. injection Hc as <-.
    unfold getitem. simpl.
    rewrite (lookup_map_columns
               (fun raw0 => map (fun d => take raw0 (hd_error (positions Z.eqb d (f :: rest)))) days)).
    rewrite Hraw. reflexivity. }
  eexists. exists col. eexists.
  split; [exact Hcal|]. unfold nrows. simpl.
  assert (Hlen : List.length col = List.length days)
    by (unfold col; apply length_map).
  split; [reflexivity|].
  split; [intros k Hk; apply date_range_nth; exact Hk|].
  split; [apply Hget; exact Hcal|].
  split; [exact Hlen|].
  assert (Hcell : forall k, k < List.length days ->
             nth k col nan =
             take raw (hd_error (positions Z.eqb (nth k days 0%Z) (f :: rest)))).
  { intros k Hk. unfold col.
    rewrite (nth_indep _ nan (take raw (hd_error (positions Z.eqb 0%Z (f :: rest)))))
      by (rewrite length_map; exact Hk).
    apply (map_nth (fun d => take raw (hd_error (positions Z.eqb d (f :: rest))))). }
  split.
  { intros p Hp.
    change (nth (Z.to_nat (nth p (f :: rest) 0%Z - f)) col nan = nth p raw nan).
    change (p < List.length (f :: rest)) in Hp.
    set (d := nth p (f :: rest) 0%Z).
    assert (Hd : (f <= d <= last rest f)%Z)
      by (apply (increasing_last Hinc); apply nth_In; exact Hp).
    assert (Hk : Z.to_nat (d - f) < List.length days)
      by (unfold days; rewrite date_range_length; lia).
    assert (Hday : nth (Z.to_nat (d - f)) days 0%Z = d)
      by (unfold days in *; rewrite date_range_nth by exact Hk; lia).
    pose proof (positions_from_nth 0 (increasing_NoDup _ Hinc) Hp) as Hpos.
    rewrite (Hcell _ Hk). unfold date in *. rewrite Hday. unfold d, positions.
    rewrite Hpos. reflexivity. }
  split.
  { intros k Hk Habsent.
    change (~ In (f + Z.of_nat k)%Z (f :: rest)) in Habsent.
    rewrite (Hcell _ Hk).
    unfold days. rewrite date_range_nth by exact Hk. unfold positions.
    rewrite positions_from_absent by exact Habsent. reflexivity. }
  split.
  { unfold __count_return_prices_for_asset. rewrite Hcal. simpl.
    rewrite (Hget _ Hcal). simpl. reflexivity. }
  split.
  { rewrite perfomance_for_asset_length, replace_na_values_length. lia. }
  intros t Ht.
  rewrite perfomance_for_asset_nth by (rewrite replace_na_values_length; lia).
  rewrite !replace_na_values_nth by lia. reflexivity.
Qed.

End ReturnCalculator.

Section TotalReturn.
Context {F : Type} `{FloatOps F}.

(** A table with at least one row normalizes, and every column of the
    table is a column of the normalized frame with one cell per row. *)
Lemma get_new_index_column (df : DataFrame) (asset : string) (raw : list F) :
  df_index df <> [] ->
  lookup asset (df_columns df) = Some raw ->
  exists cal col,
    __get_new_index df = Ok cal /\
    getitem cal asset = Ok col /\
    List.length col = nrows cal.
Proof.
  intros Hne Hraw. unfold __get_new_index.
  destruct (df_index df) as [|f rest] eqn:Hidx; [congruence|].
  set (rows := join_rows (date_range f (last (f :: rest) f)) (f :: rest)).
  eexists. exists (map (fun r => take raw (snd r)) rows).
  split; [reflexivity|]. split.
  - unfold getitem. simpl.
    rewrite (lookup_map_columns (fun raw0 => map (fun r => take raw0 (snd r)) rows)).
    rewrite Hraw. reflexivity.
  - unfold nrows. simpl. rewrite !length_map. reflexivity.
Qed.

Lemma get_series_by_currency_rate (self : AssetPerfomances) (asset : string) :
  List.length (applicable_rate self asset) <> 1 ->
  __get_series_by_currency self asset = Ok (Column (applicable_rate self asset)).
Proof.
  unfold __get_series_by_currency, applicable_rate, loc_currency, getitem.
  intros Hlen.
  destruct (lookup asset (_currencies self)) as [c|]; simpl; [|reflexivity].
  destruct (lookup c (df_columns (_exchanges self))) as [col|]; simpl; [|reflexivity].
  destruct col as [|x [|y col]]; simpl in *; try reflexivity. congruence.
Qed.

Lemma total_perfomance_of_value (self : AssetPerfomances) (asset : string)
      (raw : list F) :
  df_index (_prices self) <> [] ->
  lookup asset (df_columns (_prices self)) = Some raw ->
  List.length (applicable_rate self asset) <> 1 ->
  (forall cal, __get_new_index (_prices self) = Ok cal ->
               nrows cal <= List.length (applicable_rate self asset)) ->
  exists cal col perf,
    __get_new_index (_prices self) = Ok cal /\
    getitem cal asset = Ok col /\
    __count_total_perfomance_for_asset self asset = Ok perf /\
    List.length perf = nrows cal - 1 /\
    forall t, 0 < t < nrows cal ->
      nth (t - 1) perf nan =
      fdiv (fsub (value_at_row (applicable_rate self asset) col t)
                 (value_at_row (applicable_rate self asset) col (t - 1)))
           (value_at_row (applicable_rate self asset) col (t - 1)).
Proof.
  intros Hne Hraw Hsq Hrows.
  destruct (get_new_index_column _ _ Hne Hraw) as (cal & col & Hcal & Hcol & Hlen).
  specialize (Hrows cal Hcal).
  set (rate := applicable_rate self asset) in *.
  set (p := __replace_na_values col).
  set (g := fun i =>
              fdiv (fsub (fmul (nth i rate nan) (nth i p nan))
                         (fmul (nth (i - 1) rate nan) (nth (i - 1) p nan)))
                   (fmul (nth (i - 1) rate nan) (nth (i - 1) p nan))).
  exists cal, col, (map g (seq 1 (List.length p - 1))).
  assert (Hp : List.length p = nrows cal)
    by (unfold p; rewrite replace_na_values_length; exact Hlen).
  split; [exact Hcal|]. split; [exact Hcol|]. split.
  - unfold __count_total_perfomance_for_asset. rewrite Hcal. simpl.
    rewrite Hcol. simpl.
    rewrite (get_series_by_currency_rate _ _ Hsq). simpl.
    fold rate. fold p.
    apply mapM_pure. intros i Hi. apply in_seq in Hi.
    rewrite (item_in_range rate nan (i := i)) by lia. simpl.
    rewrite (item_in_range rate nan (i := i - 1)) by lia. simpl.
    reflexivity.
  - split.
    + rewrite length_map, length_seq. lia.
    + intros t Ht. rewrite nth_map_seq by lia.
      replace (1 + (t - 1)) with t by lia.
      unfold g, value_at_row, p.
      rewrite !replace_na_values_nth by lia. reflexivity.
Qed.

(** C4. An asset quoted in the base currency has a currency return of
    zero on every day, one entry per exchange-rate row but the first. *)
Theorem base_currency_has_zero_return (self : AssetPerfomances) (asset : string) :
  lookup asset (_currencies self) = Some "USD"%string ->
  exists perf,
    __count_currency_perfomance_for_asset self asset = Ok (perf, self) /\
    List.length perf = nrows (_exchanges self) - 1 /\
    forall t, t < List.length perf -> nth t perf nan = fzero.
Proof.
  intros Hcur. exists (repeat fzero (nrows (_exchanges self) - 1)).
  split; [|split].
  - unfold __count_currency_perfomance_for_asset, loc_currency.
    rewrite Hcur. reflexivity.
  - apply repeat_length.
  - intros t Ht. rewrite repeat_length in Ht.
    rewrite (nth_indep _ nan fzero) by (rewrite repeat_length; exact Ht).
    apply nth_repeat.
Qed.

(** C5. For an asset whose currency is neither the base currency nor a
    column of the exchange-rate table, the total-return path falls back
    to the constant rate [1], while the currency-return path raises
    [KeyError]. *)
Theorem unknown_currency_raises (self : AssetPerfomances) (asset c : string) :
  lookup asset (_currencies self) = Some c ->
  c <> "USD"%string ->
  lookup c (df_columns (_exchanges self)) = None ->
  __get_series_by_currency self asset =
    Ok (Column (repeat fone (nrows (_exchanges self)))) /\
  __count_currency_perfomance_for_asset self asset = Raise KeyError.
Proof.
  intros Hcur Hbase Hcol. split.
  - unfold __get_series_by_currency, loc_currency, getitem.
    rewrite Hcur. simpl. rewrite Hcol. reflexivity.
  - unfold __count_currency_perfomance_for_asset, loc_currency, getitem.
    rewrite Hcur. simpl.
    destruct (String.eqb_spec c "USD"%string) as [E|_]; [contradiction|].
    rewrite Hcol. reflexivity.
Qed.

(** With the constant rate [1] and at least as many exchange-rate rows
    as calendar days, the total return is the price return computed on
    the prices multiplied by [1]. *)
Lemma unknown_currency_total_is_price (self : AssetPerfomances) (asset c : string)
      (raw : list F) :
  (forall x : F, fmul fone x = x) ->
  df_index (_prices self) <> [] ->
  lookup asset (df_columns (_prices self)) = Some raw ->
  lookup asset (_currencies self) = Some c ->
  lookup c (df_columns (_exchanges self)) = None ->
  (forall cal, __get_new_index (_prices self) = Ok cal ->
               nrows cal <= nrows (_exchanges self)) ->
  exists perf,
    __count_total_perfomance_for_asset self asset = Ok perf /\
    __count_return_prices_for_asset self asset = Ok perf.
Proof.
  intros Hone Hne Hraw Hcur Hcol Hrows.
  destruct (get_new_index_column _ _ Hne Hraw) as (cal & col & Hcal & Hget & Hlen).
  specialize (Hrows cal Hcal).
  exists (perfomance_for_asset (__replace_na_values col)). split.
  - unfold __count_total_perfomance_for_asset. rewrite Hcal. simpl.
    rewrite Hget. simpl.
    unfold __get_series_by_currency, loc_currency, getitem.
    rewrite Hcur. simpl. rewrite Hcol. simpl.
    unfold perfomance_for_asset. apply mapM_pure. intros i Hi.
    apply in_seq in Hi. rewrite replace_na_values_length in Hi.
    rewrite (item_in_range _ fone (i := i)) by (rewrite repeat_length; lia).
    simpl.
    rewrite (item_in_range _ fone (i := i - 1)) by (rewrite repeat_length; lia).
    simpl. rewrite !nth_repeat, !Hone. reflexivity.
  - unfold __count_return_prices_for_asset. rewrite Hcal. simpl.
    rewrite Hget. reflexivity.
Qed.

Lemma lookup_rectangular (df : DataFrame) (name : string) (col : list F) :
  rectangular df ->
  lookup name (df_columns df) = Some col ->
  List.length col = nrows df.
Proof.
  unfold rectangular. intros Hrect Hl.
  induction (df_columns df) as [|[k v] cols IH]; simpl in Hl; [discriminate|].
  destruct (String.eqb name k).
  - injection Hl as <-. exact (Forall_inv Hrect).
  - apply IH; [exact (Forall_inv_tail Hrect) | exact Hl].
Qed.

(** The lengths of the three per-asset return series: the price and the
    total return have one entry per day of the normalized price calendar
    but the first, the currency return one entry per row of the stored
    exchange-rate table but the first. *)
Lemma return_series_lengths (self : AssetPerfomances) (asset : string) :
  (forall cal perf,
      __get_new_index (_prices self) = Ok cal ->
      __count_return_prices_for_asset self asset = Ok perf ->
      List.length perf = nrows cal - 1) /\
  (forall cal perf,
      __get_new_index (_prices self) = Ok cal ->
      __count_total_perfomance_for_asset self asset = Ok perf ->
      List.length perf = nrows cal - 1) /\
  (forall perf self',
      rectangular (_exchanges self) ->
      __count_currency_perfomance_for_asset self asset = Ok (perf, self') ->
      List.length perf = nrows (_exchanges self) - 1).
Proof.
  assert (Hcols : forall df cal col,
             __get_new_index df = Ok cal -> getitem cal asset = Ok col ->
             List.length col = nrows cal).
  { intros df cal col Hcal Hget. unfold __get_new_index in Hcal.
    destruct (df_index df) as [|f rest]; [discriminate|].
    injection Hcal as <-. unfold getitem in Hget. simpl in Hget.
    unfold nrows. simpl.
    set (rows := join_rows _ _) in *.
    rewrite (lookup_map_columns (fun raw0 => map (fun r => take raw0 (snd r)) rows))
      in Hget.
    destruct (lookup asset (df_columns df)); simpl in Hget; [|discriminate].
    injection Hget as <-. rewrite !length_map. reflexivity. }
  split; [|split].
  - intros cal perf Hcal Hperf. unfold __count_return_prices_for_asset in Hperf.
    rewrite Hcal in Hperf. simpl in Hperf.
    destruct (getitem cal asset) as [col|] eqn:Hget; simpl in Hperf; [|discriminate].
    injection Hperf as <-.
    rewrite perfomance_for_asset_length, replace_na_values_length.
    rewrite (Hcols _ _ _ Hcal Hget). reflexivity.
  - intros cal perf Hcal Hperf. unfold __count_total_perfomance_for_asset in Hperf.
    rewrite Hcal in Hperf. simpl in Hperf.
    destruct (getitem cal asset) as [col|] eqn:Hget; simpl in Hperf; [|discriminate].
    destruct (__get_series_by_currency self asset) as [sq|]; simpl in Hperf;
      [|discriminate].
    destruct (values sq) as [rate|]; simpl in Hperf; [|discriminate].
    assert (G : forall (A B : Type) (f : A -> result B) l ys,
               mapM f l = Ok ys -> List.length ys = List.length l).
    { intros A B f l. induction l as [|x l IH]; intros ys Hys; simpl in Hys.
      - injection Hys as <-. reflexivity.
      - destruct (f x); simpl in Hys; [|discriminate].
        destruct (mapM f l); simpl in Hys; [|discriminate].
        injection Hys as <-. simpl. f_equal. apply IH. reflexivity. }
    apply G in Hperf. rewrite Hperf, length_seq, replace_na_values_length.
    rewrite (Hcols _ _ _ Hcal Hget). reflexivity.
  - intros perf self' Hrect Hperf.
    unfold __count_currency_perfomance_for_asset in Hperf.
    destruct (loc_currency self asset) as [c|]; simpl in Hperf; [|discriminate].
    destruct (String.eqb c "USD").
    + injection Hperf as <- _. apply repeat_length.
    + destruct (getitem (_exchanges self) c) as [col|] eqn:Hget; simpl in Hperf;
        [|discriminate].
      injection Hperf as <- _.
      rewrite perfomance_for_asset_length, replace_na_values_length.
      unfold getitem in Hget.
      destruct (lookup c (df_columns (_exchanges self))) as [col'|] eqn:Hl;
        [|discriminate].
      injection Hget as ->.
      rewrite (lookup_rectangular _ Hrect Hl). reflexivity.
Qed.

End TotalReturn.

(** What the code computes, row by row.  When the stored exchange rates
    have a row for every position of the price calendar (and not exactly
    one row), the entry [t - 1] of the total return is the ratio
    [(v[t] - v[t-1]) / v[t-1]] of the products [v] of [value_at_row],
    whose rate is the cell at row position [t] of the stored column; the
    rate is the constant [1] when the currency is no column of the table.
    On the sample tables the result is not the sum of the price return and
    the currency return. *)
Lemma total_return_by_row :
  (forall (F : Type) (ops : FloatOps F) (self : AssetPerfomances) (asset : string)
          (raw : list F),
      df_index (_prices self) <> [] ->
      lookup asset (df_columns (_prices self)) = Some raw ->
      List.length (applicable_rate self asset) <> 1 ->
      (forall cal, __get_new_index (_prices self) = Ok cal ->
                   nrows cal <= List.length (applicable_rate self asset)) ->
      (forall c, lookup asset (_currencies self) = Some c ->
                 lookup c (df_columns (_exchanges self)) = None ->
                 applicable_rate self asset = repeat fone (nrows (_exchanges self))) /\
      exists cal col perf,
        __get_new_index (_prices self) = Ok cal /\
        getitem cal asset = Ok col /\
        __count_total_perfomance_for_asset self asset = Ok perf /\
        List.length perf = nrows cal - 1 /\
        forall t, 0 < t < nrows cal ->
          nth (t - 1) perf nan =
          fdiv (fsub (value_at_row (applicable_rate self asset) col t)
                     (value_at_row (applicable_rate self asset) col (t - 1)))
               (value_at_row (applicable_rate self asset) col (t - 1))) /\
  (exists price currency total self',
      __count_return_prices_for_asset sample_tables "A" = Ok price /\
      __count_currency_perfomance_for_asset sample_tables "A" = Ok (currency, self') /\
      __count_total_perfomance_for_asset sample_tables "A" = Ok total /\
      nth 2 total nan <> fadd (nth 2 price nan) (nth 2 currency nan)).
Proof.
  split.
  - intros F ops self asset raw Hne Hraw Hsq Hrows. split.
    + intros c Hc Hcol. unfold applicable_rate. rewrite Hc, Hcol. reflexivity.
    + exact (total_perfomance_of_value self asset Hne Hraw Hsq Hrows).
  - do 4 eexists.
    split; [vm_compute; reflexivity|].
    split; [vm_compute; reflexivity|].
    split; [vm_compute; reflexivity|].
    vm_compute. discriminate.
Qed.

(** C3 does not hold of the code: the exchange rate is read at the row
    position of the loop index, not on the calendar day.  With prices on
    days 2 and 3 and a rate for each of the days 0 to 3, the value of day
    3 over the value of day 2 gives the total return 1/10, the rate being
    4 on both days; the code multiplies the prices by the rates of days 0
    and 1 and returns 6/5, which the constructor stores.  And for an asset
    of the base currency, whose rate is 1 on every day, the code runs past
    the end of an exchange-rate table shorter than the price calendar and
    raises [IndexError]. *)
Theorem total_return_reads_rates_by_row :
  (exists cal col,
      __get_new_index (_prices late_prices_tables) = Ok cal /\
      df_index cal = [2; 3]%Z /\
      getitem cal "A"%string = Ok col /\
      rate_on_day late_prices_tables "A"%string 2%Z = q 4 1 /\
      rate_on_day late_prices_tables "A"%string 3%Z = q 4 1 /\
      total_return_on_day late_prices_tables "A"%string (df_index cal) col 1 = q 1 10 /\
      __count_total_perfomance_for_asset late_prices_tables "A"%string = Ok [q 6 5]) /\
  (exists self,
      TotalPerfomance_init late_prices_tables = Ok self /\
      __trt (tp_super self) = {| df_index := [3%Z]; df_columns := [("A"%string, [q 6 5])] |}) /\
  rate_on_day base_currency_tables "A"%string 0%Z = fone /\
  rate_on_day base_currency_tables "A"%string 1%Z = fone /\
  rate_on_day base_currency_tables "A"%string 2%Z = fone /\
  __count_return_prices_for_asset base_currency_tables "A"%string = Ok [q 1 10; q 1 10] /\
  __count_total_perfomance_for_asset base_currency_tables "A"%string = Raise IndexError /\
  TotalPerfomance_init base_currency_tables = Raise IndexError.
Proof.
  split.
  { eexists. eexists.
    split; [vm_compute; reflexivity|].
    repeat split; vm_compute; reflexivity. }
  split.
  { eexists. split; vm_compute; reflexivity. }
  repeat split; vm_compute; reflexivity.
Qed.

(** C7. With exchange rates that skip a day, the normalized exchange-rate
    calendar has three days but the currency return of the asset has a
    single entry, and the frame of currency returns cannot take the
    normalized calendar as its index. *)
Theorem currency_series_ignores_calendar :
  (exists cal, __get_new_index (_exchanges gappy_exchange_tables) = Ok cal /\
               nrows cal = 3) /\
  (exists perf self',
      __count_currency_perfomance_for_asset gappy_exchange_tables "A" = Ok (perf, self') /\
      List.length perf = 1) /\
  _calculate_currency_perfomance_for_all_assets gappy_exchange_tables = Raise ValueError /\
  TotalPerfomance_init gappy_exchange_tables = Raise ValueError.
Proof.
  split; [|split; [|split]].
  - eexists. split; vm_compute; reflexivity.
  - do 2 eexists. split; vm_compute; reflexivity.
  - vm_compute. reflexivity.
  - vm_compute. reflexivity.
Qed.

(** ** Alignment of row labels *)

Lemma list_eqb_dates (a b : list date) : list_eqb Z.eqb a b = true -> a = b.
Proof.
  revert b. induction a as [|x a IH]; intros [|y b] Heq; simpl in Heq;
    try reflexivity; try discriminate.
  apply andb_true_iff in Heq. destruct Heq as [Hxy Hab].
  apply Z.eqb_eq in Hxy. rewrite Hxy, (IH _ Hab). reflexivity.
Qed.

Lemma in_insert_label (x y : date) (l : list date) :
  In x (insert_label Z.eqb Z.ltb y l) <-> x = y \/ In x l.
Proof.
  induction l as [|z l IH]; simpl.
  - intuition congruence.
  - destruct (Z.eqb_spec y z) as [->|Hne].
    + simpl. intuition congruence.
    + destruct (y <? z)%Z; simpl.
      * intuition congruence.
      * rewrite IH. intuition congruence.
Qed.

Lemma in_sort_labels (x : date) (l : list date) :
  In x (sort_labels Z.eqb Z.ltb l) <-> In x l.
Proof.
  unfold sort_labels. induction l as [|y l IH]; simpl.
  - reflexivity.
  - rewrite in_insert_label, IH. intuition congruence.
Qed.

(** The outer join holds the dates of both indexes and no other date. *)
Lemma in_outer_join (d : date) (a b : list date) :
  In d (outer_join Z.eqb Z.ltb a b) <-> In d a \/ In d b.
Proof.
  unfold outer_join. destruct (list_eqb Z.eqb a b) eqn:Heq.
  - apply list_eqb_dates in Heq. subst b. tauto.
  - destruct a as [|x a].
    + simpl. tauto.
    + destruct b as [|y b].
      * simpl. tauto.
      * rewrite in_sort_labels, in_app_iff. reflexivity.
Qed.

Section Aggregator.
Context {F : Type} `{FloatOps F}.

Lemma according_on_weights_index (perf weights : DataFrame) :
  s_index (according_on_weights perf weights) =
  outer_join Z.eqb Z.ltb (df_index perf) (df_index weights).
Proof.
  unfold according_on_weights, s_index, mul_frames, nrows. simpl.
  apply map_fst_combine. rewrite length_map, length_seq. reflexivity.
Qed.

Lemma according_on_weights_length (perf weights : DataFrame) :
  List.length (according_on_weights perf weights) =
  List.length (outer_join Z.eqb Z.ltb (df_index perf) (df_index weights)).
Proof.
  rewrite <- according_on_weights_index. unfold s_index.
  rewrite length_map. reflexivity.
Qed.

Lemma list_eqb_false_in_reindex (df : DataFrame) (idx : list date) (name : string) :
  list_eqb Z.eqb (df_index df) idx = false ->
  lookup name (reindex_rows df idx) =
  option_map (fun col =>
                map (fun d =>
                       match positions Z.eqb d (df_index df) with
                       | p :: _ => nth p col nan
                       | [] => nan
                       end) idx)
             (lookup name (df_columns df)).
Proof.
  intros Hneq. unfold reindex_rows. rewrite Hneq.
  apply (lookup_map_columns
           (fun col => map (fun d =>
                              match positions Z.eqb d (df_index df) with
                              | p :: _ => nth p col nan
                              | [] => nan
                              end) idx)).
Qed.

(** A frame reindexed on [idx] holds, at position [i] of column [name],
    the cell of the frame on the day at position [i] of [idx]. *)
Lemma reindexed_column (df : DataFrame) (idx : list date) (name : string) (i : nat) :
  rectangular df ->
  NoDup (df_index df) ->
  i < List.length idx ->
  List.length (column_or_nan (reindex_rows df idx) (List.length idx) name) =
    List.length idx /\
  nth i (column_or_nan (reindex_rows df idx) (List.length idx) name) nan =
    cell df name (nth i idx 0%Z).
Proof.
  intros Hrect Hnd Hi. unfold column_or_nan, cell.
  destruct (list_eqb Z.eqb (df_index df) idx) eqn:Heq.
  - unfold reindex_rows. rewrite Heq.
    apply list_eqb_dates in Heq. subst idx.
    destruct (lookup name (df_columns df)) as [col|] eqn:Hcol.
    + split; [exact (lookup_rectangular _ Hrect Hcol)|].
      unfold positions. rewrite (positions_from_nth 0 Hnd Hi). reflexivity.
    + split; [apply repeat_length|].
      rewrite nth_repeat_lt by exact Hi. reflexivity.
  - rewrite (list_eqb_false_in_reindex _ _ name Heq).
    destruct (lookup name (df_columns df)) as [col|]; simpl.
    + split; [apply length_map|].
      set (g := fun d => match positions Z.eqb d (df_index df) with
                         | p :: _ => nth p col nan
                         | [] => nan
                         end).
      rewrite (nth_indep _ nan (g 0%Z)) by (rewrite length_map; exact Hi).
      apply (map_nth g).
    + split; [apply repeat_length|].
      rewrite nth_repeat_lt by exact Hi. reflexivity.
Qed.

(** What the aggregation computes: on every day of the outer join of the
    two indexes, the sum over the assets of return times weight, each
    factor read on that very day and missing when its frame lacks it. *)
Lemma according_on_weights_by_label (perf weights : DataFrame) :
  rectangular perf -> rectangular weights ->
  NoDup (df_index perf) -> NoDup (df_index weights) ->
  according_on_weights perf weights =
  map (fun d => (d, weighted_sum perf weights d))
      (outer_join Z.eqb Z.ltb (df_index perf) (df_index weights)).
Proof.
  intros Hrp Hrw Hnp Hnw. unfold according_on_weights, nrows.
  set (m := mul_frames perf weights).
  assert (Hm : df_index m = outer_join Z.eqb Z.ltb (df_index perf) (df_index weights))
    by reflexivity.
  rewrite Hm. set (idx := outer_join Z.eqb Z.ltb (df_index perf) (df_index weights)) in *.
  apply (@combine_map_seq _ _ idx _ (weighted_sum perf weights) 0%Z). intros i Hi.
  unfold weighted_sum, row_values. f_equal.
  unfold m, mul_frames. cbn [df_columns]. fold idx.
  rewrite map_map. apply map_ext. intros name. cbn [snd].
  destruct (@reindexed_column perf idx name i Hrp Hnp Hi) as [Hlp Hvp].
  destruct (@reindexed_column weights idx name i Hrw Hnw Hi) as [Hlw Hvw].
  unfold date in *.
  rewrite (nth_map_combine fmul _ _ nan nan nan) by (rewrite ?Hlp, ?Hlw; exact Hi).
  rewrite Hvp, Hvw. reflexivity.
Qed.

(** The index of the product frame, for any two frames: the outer join
    of the two indexes, which holds every day of either, so the series is
    at least as long as each of the two. *)
Lemma weights_alignment_is_outer (perf weights : DataFrame) :
  s_index (according_on_weights perf weights) =
    outer_join Z.eqb Z.ltb (df_index perf) (df_index weights) /\
  (forall d, In d (s_index (according_on_weights perf weights)) <->
             In d (df_index perf) \/ In d (df_index weights)) /\
  (NoDup (df_index perf) ->
   nrows perf <= List.length (according_on_weights perf weights)) /\
  (NoDup (df_index weights) ->
   nrows weights <= List.length (according_on_weights perf weights)).
Proof.
  split; [apply according_on_weights_index|].
  split; [intros d; rewrite according_on_weights_index; apply in_outer_join|].
  split; intros Hnd; rewrite according_on_weights_length; unfold nrows;
    apply (NoDup_incl_length Hnd); intros d Hd; apply in_outer_join; tauto.
Qed.


End Aggregator.

(** C8. With prices and weights observed on the same three days, the
    return frame is indexed by days 1 and 2 and the prepared weights by
    days 0 and 1; the portfolio-level price return is then indexed by days
    0, 1 and 2, and only day 1 holds a weighted sum of observed values. *)
Theorem weighted_series_misaligned :
  PerfomancesWithWeights_init same_calendar_tables = Ok same_calendar_object /\
  df_index (__rt same_calendar_object) = [1; 2]%Z /\
  df_index (__weights same_calendar_object) = [0; 1]%Z /\
  _calculate_price_perfomance_according_on_weights same_calendar_object =
    [(0%Z, None); (1%Z, q 1 10); (2%Z, None)].
Proof.
  repeat split; vm_compute; reflexivity.
Qed.


(** ** Date lookup *)

Lemma get_loc_absent (idx : list date) (d : date) :
  ~ In d idx -> get_loc idx d = Raise KeyError.
Proof.
  intros Hd. unfold get_loc, positions.
  rewrite positions_from_absent by exact Hd. reflexivity.
Qed.

Lemma get_loc_present (idx : list date) (d : date) :
  In d idx -> exists l, get_loc idx d = Ok l.
Proof.
  intros Hd. unfold get_loc, positions.
  pose proof (positions_from_present 0 d idx Hd) as Hne.
  destruct (positions_from Z.eqb 0 d idx) as [|p [|p' ps]].
  - congruence.
  - exists (At p). reflexivity.
  - exists Several. reflexivity.
Qed.

Lemma get_loc_position (idx : list date) (d : date) (p : nat) :
  get_loc idx d = Ok (At p) -> p < List.length idx /\ nth p idx 0%Z = d.
Proof.
  unfold get_loc, positions. intros Hloc.
  destruct (positions_from Z.eqb 0 d idx) as [|p0 [|p1 ps]] eqn:Hpos;
    try discriminate.
  injection Hloc as ->.
  assert (Hin : In p (positions_from Z.eqb 0 d idx)) by (rewrite Hpos; left; reflexivity).
  apply positions_from_spec in Hin. rewrite Nat.sub_0_r in Hin. tauto.
Qed.

Section Compounding.
Context {F : Type} `{FloatOps F}.

Lemma cumulative_length (rs : list F) (x : F) :
  List.length (cumulative x rs) = S (List.length rs).
Proof.
  revert x. induction rs as [|r rs IH]; intros x; simpl.
  - reflexivity.
  - rewrite IH. reflexivity.
Qed.

Lemma cumulative_head (rs : list F) (x d : F) : nth 0 (cumulative x rs) d = x.
Proof.
  destruct rs; reflexivity.
Qed.

Lemma cumulative_step (rs : list F) (x : F) (k : nat) :
  k < List.length rs ->
  nth (S k) (cumulative x rs) nan =
  fmul (nth k (cumulative x rs) nan) (fadd fone (nth k rs nan)).
Proof.
  revert x k. induction rs as [|r rs IH]; intros x k Hk; simpl in Hk.
  - lia.
  - destruct k as [|k].
    + simpl. rewrite cumulative_head. reflexivity.
    + change (nth (S (S k)) (cumulative x (r :: rs)) nan)
        with (nth (S k) (cumulative (fmul x (fadd fone r)) rs) nan).
      rewrite IH by lia. reflexivity.
Qed.

Lemma cumulative_fold (rs : list F) (x : F) (k : nat) :
  k <= List.length rs ->
  nth k (cumulative x rs) nan =
  fold_left (fun acc r => fmul acc (fadd fone r)) (firstn k rs) x.
Proof.
  revert x k. induction rs as [|r rs IH]; intros x k Hk; simpl in Hk.
  - replace k with 0 by lia. reflexivity.
  - destruct k as [|k].
    + reflexivity.
    + change (nth (S k) (cumulative x (r :: rs)) nan)
        with (nth k (cumulative (fmul x (fadd fone r)) rs) nan).
      rewrite IH by lia. reflexivity.
Qed.

Lemma fold_positions_values (g : F -> F -> F) (r : list F) (n a : nat) (x : F) :
  a + n <= List.length r ->
  fold_left (fun acc k => g acc (nth k r nan)) (seq a n) x =
  fold_left g (firstn n (skipn a r)) x.
Proof.
  revert a x. induction n as [|n IH]; intros a x Han.
  - reflexivity.
  - rewrite (skipn_cons_nth r nan (a := a)) by lia.
    simpl. rewrite IH by lia. reflexivity.
Qed.

Lemma last_item_snoc (pre : list F) (x : F) : last_item (pre ++ [x]) = Ok x.
Proof.
  destruct pre as [|y pre]; simpl.
  - reflexivity.
  - rewrite last_last. reflexivity.
Qed.

(** The loop of the queries extends its list by the running products of
    the returns it visits. *)
Lemma compound_loop_cumulative (column : Series) (n a : nat) (pre : list F) (x : F) :
  a + n <= List.length (s_values column) ->
  compound_loop column (pre ++ [x]) (seq a n) =
  Ok (pre ++ cumulative x (firstn n (skipn a (s_values column)))).
Proof.
  revert a pre x. induction n as [|n IH]; intros a pre x Han.
  - reflexivity.
  - simpl seq. simpl compound_loop.
    rewrite last_item_snoc. simpl.
    rewrite (item_in_range (s_values column) nan (i := a)) by lia. simpl.
    rewrite IH by lia.
    rewrite (skipn_cons_nth (s_values column) nan (a := a)) by lia.
    simpl. rewrite <- app_assoc. reflexivity.
Qed.

Lemma series_lengths (column : @Series F) :
  List.length (s_index column) = List.length (s_values column).
Proof.
  unfold s_index, s_values. rewrite !length_map. reflexivity.
Qed.

Lemma loc_slice_length (idx : list date) (s e : nat) :
  e < List.length idx -> List.length (loc_slice idx s e) = S e - s.
Proof.
  intros He. unfold loc_slice. rewrite length_firstn, length_skipn. lia.
Qed.

(** A range whose ends resolve to [s <= e] yields the running products
    of the returns at [s+1..e], labelled by the dates at [s..e]. *)
Lemma compound_range_ok (seed : F) (column : Series)
      (start_date end_date : date) (s e : nat) :
  get_loc (s_index column) start_date = Ok (At s) ->
  get_loc (s_index column) end_date = Ok (At e) ->
  s <= e ->
  compound_range seed column start_date end_date =
  Ok (combine (loc_slice (s_index column) s e)
              (cumulative seed (firstn (e - s) (skipn (S s) (s_values column))))).
Proof.
  intros Hs He Hse.
  pose proof (get_loc_position _ _ He) as [Hlt _].
  pose proof (series_lengths column) as Hlen.
  unfold compound_range, __get_index_of_start_date_element,
    __get_index_of_end_date_element.
  rewrite Hs, He. cbv beta iota delta [bind].
  replace (S e - S s) with (e - s) by lia.
  pose proof (@compound_loop_cumulative column (e - s) (S s) [] seed) as Hloop.
  rewrite !app_nil_l in Hloop. rewrite Hloop by lia. clear Hloop.
  cbv beta iota delta [bind]. unfold make_series.
  rewrite cumulative_length, length_firstn, length_skipn.
  rewrite loc_slice_length by exact Hlt.
  replace (S (Nat.min (e - s) (List.length (s_values column) - S s)) =? S e - s)
    with true by (symmetry; apply Nat.eqb_eq; lia).
  reflexivity.
Qed.

Lemma compound_range_compounds (column : Series)
      (start_date end_date : date) (s e : nat) :
  get_loc (s_index column) start_date = Ok (At s) ->
  get_loc (s_index column) end_date = Ok (At e) ->
  s <= e ->
  exists out,
    compound_range fone column start_date end_date = Ok out /\
    compounds column s e out.
Proof.
  intros Hs He Hse.
  pose proof (get_loc_position _ _ He) as [Hlt _].
  pose proof (series_lengths column) as Hlen.
  eexists. split; [apply (compound_range_ok fone column _ _ Hs He Hse)|].
  set (rs := firstn (e - s) (skipn (S s) (s_values column))).
  assert (Hrs : List.length rs = e - s)
    by (unfold rs; rewrite length_firstn, length_skipn; lia).
  assert (Hsl : List.length (loc_slice (s_index column) s e) =
                List.length (cumulative fone rs))
    by (rewrite cumulative_length, Hrs, loc_slice_length by exact Hlt; lia).
  assert (Hidx : s_index (combine (loc_slice (s_index column) s e) (cumulative fone rs)) =
                 loc_slice (s_index column) s e)
    by (apply map_fst_combine; exact Hsl).
  assert (Hval : s_values (combine (loc_slice (s_index column) s e) (cumulative fone rs)) =
                 cumulative fone rs)
    by (apply map_snd_combine; exact Hsl).
  unfold compounds. rewrite Hidx, Hval.
  split; [reflexivity|].
  split; [rewrite length_combine, <- Hsl, Nat.min_id, loc_slice_length by exact Hlt; lia|].
  split; [apply cumulative_head|].
  split.
  - intros i Hi.
    replace (i - s) with (S (i - s - 1)) at 1 by lia.
    rewrite cumulative_step by lia.
    f_equal. f_equal. unfold rs.
    rewrite nth_firstn.
    destruct (Nat.ltb_spec (i - s - 1) (e - s)); [|lia].
    rewrite nth_skipn. f_equal. lia.
  - intros i Hi. rewrite cumulative_fold by lia.
    unfold growth_product.
    rewrite (fold_positions_values (fun acc r => fmul acc (fadd fone r))) by lia.
    unfold rs. rewrite firstn_firstn.
    replace (Nat.min (i - s) (e - s)) with (i - s) by lia. reflexivity.
Qed.

Lemma compound_range_single_day (seed : F) (column : Series) (d : date) (s : nat) :
  get_loc (s_index column) d = Ok (At s) ->
  compound_range seed column d d = Ok [(d, seed)].
Proof.
  intros Hs.
  pose proof (get_loc_position _ _ Hs) as [Hlt Hd].
  rewrite (compound_range_ok seed column _ _ Hs Hs (Nat.le_refl s)).
  rewrite Nat.sub_diag. unfold loc_slice.
  replace (S s - s) with 1 by lia.
  rewrite (skipn_cons_nth (s_index column) 0%Z (a := s)) by exact Hlt.
  rewrite Hd. reflexivity.
Qed.

Lemma compound_range_key_error (seed : F) (column : Series)
      (start_date end_date : date) :
  ~ In start_date (s_index column) \/ ~ In end_date (s_index column) ->
  compound_range seed column start_date end_date = Raise KeyError.
Proof.
  intros Habs.
  unfold compound_range, __get_index_of_start_date_element,
    __get_index_of_end_date_element.
  destruct (in_dec Z.eq_dec start_date (s_index column)) as [Hin|Hout].
  - destruct Habs as [Habs|Habs]; [contradiction|].
    destruct (get_loc_present _ _ Hin) as [l ->]. simpl.
    rewrite (get_loc_absent _ _ Habs). reflexivity.
  - rewrite (get_loc_absent _ _ Hout). reflexivity.
Qed.

Lemma compound_range_value_error (seed : F) (column : Series)
      (start_date end_date : date) (s e : nat) :
  get_loc (s_index column) start_date = Ok (At s) ->
  get_loc (s_index column) end_date = Ok (At e) ->
  e < s ->
  compound_range seed column start_date end_date = Raise ValueError.
Proof.
  intros Hs He Hlt.
  unfold compound_range, __get_index_of_start_date_element,
    __get_index_of_end_date_element.
  rewrite Hs, He. cbv beta iota delta [bind].
  unfold make_series, loc_slice.
  replace (S e - S s) with 0 by lia.
  replace (S e - s) with 0 by lia. reflexivity.
Qed.

Lemma init_seeds (tables : AssetPerfomances) (self : TotalPerfomance) :
  TotalPerfomance_init tables = Ok self ->
  __P self = fone /\ __CP self = fone /\ __TP self = fone.
Proof.
  unfold TotalPerfomance_init. intros Hinit.
  destruct (PerfomancesWithWeights_init tables) as [super|]; simpl in Hinit;
    [|discriminate].
  injection Hinit as <-. repeat split.
Qed.

(** C1. On the object built from the tables, each of the three queries
    answers every range whose ends resolve to positions [s <= e] with a
    series that starts at [1] and multiplies on by [1 + return[i]] at
    every later position [i], so that its entry at [i] is the product of
    [1 + return[k]] for [k] from [s + 1] to [i]. *)
Theorem compounding_recurrence (tables : AssetPerfomances) (self : TotalPerfomance) :
  TotalPerfomance_init tables = Ok self ->
  compounds_every_range (__res_t self) (calculate_asset_performance self) /\
  compounds_every_range (__currency_res_t self) (calculate_currency_performance self) /\
  compounds_every_range (__total_res_t self) (calculate_total_performance self).
Proof.
  intros Hinit. destruct (init_seeds _ Hinit) as (_ & Hcp & Htp).
  unfold compounds_every_range, calculate_asset_performance,
    calculate_currency_performance, calculate_total_performance.
  rewrite Hcp, Htp.
  repeat split; intros sd ed s e Hs He Hse;
    apply compound_range_compounds; assumption.
Qed.

(** C6. Each of the three queries raises [KeyError] when the start date
    or the end date is not in the calendar of its return series, and
    [ValueError] when the start date resolves to a position after that
    of the end date; in both cases no series is returned. *)
Theorem query_errors (self : TotalPerfomance) :
  rejects_bad_ranges (__res_t self) (calculate_asset_performance self) /\
  rejects_bad_ranges (__currency_res_t self) (calculate_currency_performance self) /\
  rejects_bad_ranges (__total_res_t self) (calculate_total_performance self).
Proof.
  unfold rejects_bad_ranges, calculate_asset_performance,
    calculate_currency_performance, calculate_total_performance.
  repeat split;
    solve [ intros Habs; apply compound_range_key_error; exact Habs
          | intros s e Hs He Hlt; apply (compound_range_value_error _ _ _ _ Hs He Hlt) ].
Qed.

(** C10. When the start date and the end date are the same date of the
    calendar, each of the three queries returns the single entry [1],
    labelled by that date. *)
Theorem single_day_range (tables : AssetPerfomances) (self : TotalPerfomance) :
  TotalPerfomance_init tables = Ok self ->
  single_day_is_one (__res_t self) (calculate_asset_performance self) /\
  single_day_is_one (__currency_res_t self) (calculate_currency_performance self) /\
  single_day_is_one (__total_res_t self) (calculate_total_performance self).
Proof.
  intros Hinit. destruct (init_seeds _ Hinit) as (_ & Hcp & Htp).
  unfold single_day_is_one, calculate_asset_performance,
    calculate_currency_performance, calculate_total_performance.
  rewrite Hcp, Htp.
  repeat split; intros d s Hs; apply (compound_range_single_day _ _ _ Hs).
Qed.

End Compounding.

(** ** The theorems at the sample tables *)

Lemma sample_object_built : TotalPerfomance_init sample_tables = Ok sample_object.
Proof.
  vm_compute. reflexivity.
Qed.

Lemma compounding_recurrence_witness :
  exists out,
    calculate_asset_performance sample_object 1%Z 2%Z = Ok out /\
    compounds (__res_t sample_object) 1 2 out.
Proof.
  destruct (compounding_recurrence sample_tables sample_object_built) as [Hasset _].
  apply (Hasset 1%Z 2%Z 1 2); [vm_compute; reflexivity | vm_compute; reflexivity | lia].
Defined.

Lemma price_return_formula_witness :
  exists cal col perf,
    __get_new_index (_prices sample_tables) = Ok cal /\
    getitem cal "A"%string = Ok col /\
    df_index cal = [0; 1; 2; 3]%Z /\
    nth 0 col nan = q 100 1 /\
    nth 1 col nan = nan /\
    nth 2 col nan = q 110 1 /\
    nth 3 col nan = q 121 1 /\
    __count_return_prices_for_asset sample_tables "A"%string = Ok perf /\
    nth 0 perf nan = q 0 1 /\
    nth 1 perf nan = q 1 10 /\
    nth 2 perf nan = q 1 10.
Proof.
  destruct (@price_return_formula num num_ops sample_tables "A"%string 0%Z [2; 3]%Z
              [q 100 1; q 110 1; q 121 1])
    as (cal & col & perf & Hcal & Hidx & _ & Hcol & Hlen & Hobs & Hgap & Hperf & _ & Hret).
  - reflexivity.
  - simpl. intuition lia.
  - reflexivity.
  - assert (Hrows : nrows cal = 4) by (unfold nrows; rewrite Hidx; reflexivity).
    pose proof (Hobs 0 ltac:(simpl; lia)) as H0.
    pose proof (Hobs 1 ltac:(simpl; lia)) as H2.
    pose proof (Hobs 2 ltac:(simpl; lia)) as H3.
    assert (H1 : nth 1 col nan = nan).
    { apply Hgap; [rewrite Hrows; lia|]. simpl. intuition lia. }
    simpl in H0, H2, H3.
    assert (Hcols : col = [q 100 1; nan; q 110 1; q 121 1]).
    { rewrite Hrows in Hlen.
      destruct col as [|c0 [|c1 [|c2 [|c3 [|c4 col]]]]]; try discriminate.
      simpl in H0, H1, H2, H3. subst. reflexivity. }
    exists cal, col, perf.
    split; [exact Hcal|]. split; [exact Hcol|]. split; [exact Hidx|].
    split; [exact H0|]. split; [exact H1|]. split; [exact H2|]. split; [exact H3|].
    split; [exact Hperf|].
    pose proof (Hret 1 ltac:(rewrite Hrows; lia)) as R1.
    pose proof (Hret 2 ltac:(rewrite Hrows; lia)) as R2.
    pose proof (Hret 3 ltac:(rewrite Hrows; lia)) as R3.
    rewrite Hcols in R1, R2, R3.
    split; [exact R1|]. split; [exact R2 | exact R3].
Defined.

Lemma total_return_by_row_example :
  exists perf,
    __count_total_perfomance_for_asset sample_tables "A"%string = Ok perf /\
    List.length perf = 3.
Proof.
  destruct (proj1 total_return_by_row num num_ops sample_tables "A"%string
                  [q 100 1; q 110 1; q 121 1])
    as (_ & cal & col & perf & Hcal & _ & Hperf & Hlen & _).
  - discriminate.
  - reflexivity.
  - vm_compute. lia.
  - intros cal Hcal. vm_compute in Hcal. injection Hcal as <-. vm_compute. lia.
  - exists perf. split; [exact Hperf|].
    rewrite Hlen. vm_compute in Hcal. injection Hcal as <-. vm_compute. reflexivity.
Defined.

Lemma base_currency_has_zero_return_witness :
  exists perf,
    __count_currency_perfomance_for_asset sample_tables "B"%string = Ok (perf, sample_tables) /\
    List.length perf = 3.
Proof.
  destruct (@base_currency_has_zero_return num num_ops sample_tables "B"%string)
    as (perf & Hperf & Hlen & _).
  - reflexivity.
  - exists perf. split; [exact Hperf | exact Hlen].
Defined.

Lemma unknown_currency_raises_witness :
  __count_currency_perfomance_for_asset unknown_currency_tables "A"%string = Raise KeyError.
Proof.
  apply (proj2 (@unknown_currency_raises num num_ops unknown_currency_tables "A"%string "GBP"%string
                  eq_refl ltac:(discriminate) eq_refl)).
Defined.

Lemma query_errors_witness :
  calculate_asset_performance sample_object 7%Z 2%Z = Raise KeyError /\
  calculate_asset_performance sample_object 2%Z 1%Z = Raise ValueError.
Proof.
  destruct (query_errors sample_object) as [Hasset _]. split.
  - apply (proj1 (Hasset 7%Z 2%Z)). left. vm_compute. intuition discriminate.
  - apply (proj2 (Hasset 2%Z 1%Z) 2 1); [vm_compute; reflexivity | vm_compute; reflexivity | lia].
Defined.


Lemma weights_alignment_is_outer_example :
  nrows (__rt short_weights_object) <=
  List.length (according_on_weights (__rt short_weights_object)
                                    (__weights short_weights_object)).
Proof.
  apply (proj1 (proj2 (proj2 (weights_alignment_is_outer
                                (__rt short_weights_object)
                                (__weights short_weights_object))))).
  vm_compute. repeat constructor; simpl; intuition discriminate.
Defined.

Lemma single_day_range_witness :
  calculate_total_performance sample_object 1%Z 1%Z = Ok [(1%Z, fone)].
Proof.
  destruct (single_day_range sample_tables sample_object_built) as (_ & _ & Htotal).
  apply (Htotal 1%Z 1). vm_compute. reflexivity.
Defined.

(** * Further properties of the pipeline *)

(** ** Gap filling *)

Lemma firstn_snoc_nth (A : Type) (l : list A) (t : nat) (d : A) :
  t < List.length l -> firstn (S t) l = firstn t l ++ [nth t l d].
Proof.
  revert t. induction l as [|x l IH]; intros t Ht; simpl in Ht.
  - lia.
  - destruct t as [|t]; [reflexivity|].
    change (firstn (S (S t)) (x :: l)) with (x :: firstn (S t) l).
    rewrite (IH t) by lia. reflexivity.
Qed.

Lemma in_firstn (A : Type) (x : A) (n : nat) (l : list A) :
  In x (firstn n l) -> In x l.
Proof.
  revert n. induction l as [|y l IH]; intros [|n] Hin; simpl in *;
    try contradiction.
  destruct Hin as [Hin|Hin]; [left; exact Hin | right; exact (IH _ Hin)].
Qed.

Section GapFilling.
Context {F : Type} `{FloatOps F}.

Lemma first_valid_all_missing (l : list F) :
  (forall x, In x l -> isna x = true) -> first_valid l = None.
Proof.
  unfold first_valid. induction l as [|x l IH]; intros Hall; simpl.
  - reflexivity.
  - rewrite (Hall x (or_introl eq_refl)). simpl.
    apply IH. intros y Hy. apply Hall. right. exact Hy.
Qed.

Lemma gap_filled_observation (l : list F) (t : nat) :
  t < List.length l -> isna (nth t l nan) = false -> gap_filled l t = nth t l nan.
Proof.
  intros Ht Hv. unfold gap_filled, last_valid_upto.
  rewrite (firstn_snoc_nth l nan Ht), rev_app_distr. simpl.
  unfold first_valid. simpl. rewrite Hv. reflexivity.
Qed.

Lemma gap_filled_is_valid (l : list F) (v : F) (t : nat) :
  first_valid l = Some v -> isna (gap_filled l t) = false.
Proof.
  intros Hv. unfold gap_filled.
  destruct (last_valid_upto l t) as [w|] eqn:Hw.
  - exact (first_valid_is_valid _ Hw).
  - rewrite Hv. exact (first_valid_is_valid _ Hv).
Qed.

Lemma replace_na_values_all_missing (l : list F) :
  first_valid l = None -> __replace_na_values l = l.
Proof.
  intros Hnone. apply (nth_ext _ _ nan nan (replace_na_values_length l)).
  intros t Ht. rewrite replace_na_values_length in Ht.
  rewrite replace_na_values_nth by exact Ht.
  unfold gap_filled, last_valid_upto. rewrite Hnone.
  rewrite first_valid_all_missing; [reflexivity|].
  intros x Hx. apply (first_valid_none _ _ Hnone).
  apply in_rev in Hx. exact (in_firstn _ _ _ Hx).
Qed.

(** X1. A column with at least one observation has no missing value left
    once it is filled. *)
Theorem replace_na_values_complete (l : list F) (v : F) (t : nat) :
  first_valid l = Some v ->
  t < List.length l ->
  isna (nth t (__replace_na_values l) nan) = false.
Proof.
  intros Hv Ht. rewrite replace_na_values_nth by exact Ht.
  exact (gap_filled_is_valid l t Hv).
Qed.

(** X2. Filling keeps the length of the column and every observation in
    its place; a column without any observation is returned as it is. *)
Theorem replace_na_values_keeps_observations (l : list F) :
  List.length (__replace_na_values l) = List.length l /\
  (forall t, t < List.length l -> isna (nth t l nan) = false ->
             nth t (__replace_na_values l) nan = nth t l nan) /\
  (first_valid l = None -> __replace_na_values l = l).
Proof.
  split; [apply replace_na_values_length|]. split.
  - intros t Ht Hv. rewrite replace_na_values_nth by exact Ht.
    apply gap_filled_observation; assumption.
  - apply replace_na_values_all_missing.
Qed.

(** X3. Filling a filled column changes nothing. *)
Theorem replace_na_values_idempotent (l : list F) :
  __replace_na_values (__replace_na_values l) = __replace_na_values l.
Proof.
  destruct (first_valid l) as [v|] eqn:Hv.
  - apply (nth_ext _ _ nan nan (replace_na_values_length _)).
    intros t Ht. rewrite !replace_na_values_length in Ht.
    rewrite replace_na_values_nth by (rewrite replace_na_values_length; exact Ht).
    apply gap_filled_observation.
    + rewrite replace_na_values_length. exact Ht.
    + rewrite replace_na_values_nth by exact Ht.
      exact (gap_filled_is_valid l t Hv).
  - rewrite !(replace_na_values_all_missing l Hv). reflexivity.
Qed.

End GapFilling.

(** ** Calendar normalization *)

Lemma increasing_shifted_seq (a : date) (s n : nat) :
  increasing (map (fun k => (a + Z.of_nat k)%Z) (seq s n)).
Proof.
  revert s. induction n as [|n IH]; intros s; simpl.
  - exact I.
  - split; [|apply IH].
    intros y Hy. apply in_map_iff in Hy. destruct Hy as (k & <- & Hk).
    apply in_seq in Hk. lia.
Qed.

Lemma date_range_increasing (a b : date) : increasing (date_range a b).
Proof.
  apply increasing_shifted_seq.
Qed.

Lemma last_shifted_seq (a d : date) (s m : nat) :
  last (map (fun k => (a + Z.of_nat k)%Z) (seq s (S m))) d = (a + Z.of_nat (s + m))%Z.
Proof.
  revert s d. induction m as [|m IH]; intros s d.
  - simpl. rewrite Nat.add_0_r. reflexivity.
  - change (seq s (S (S m))) with (s :: seq (S s) (S m)).
    change (map (fun k => (a + Z.of_nat k)%Z) (s :: seq (S s) (S m)))
      with ((a + Z.of_nat s)%Z :: map (fun k => (a + Z.of_nat k)%Z) (seq (S s) (S m))).
    rewrite last_cons, IH. f_equal. lia.
Qed.

(** A non-empty range starts at its first day and ends at its last. *)
Lemma date_range_ends (a b : date) :
  (a <= b)%Z ->
  exists rest, date_range a b = a :: rest /\ last rest a = b.
Proof.
  intros Hab. unfold date_range.
  replace (Z.to_nat (b - a + 1)) with (S (Z.to_nat (b - a))) by lia.
  exists (map (fun k => (a + Z.of_nat k)%Z) (seq 1 (Z.to_nat (b - a)))). split.
  - simpl. rewrite Z.add_0_r. reflexivity.
  - pose proof (last_shifted_seq a a 0 (Z.to_nat (b - a))) as Hlast.
    simpl seq in Hlast. simpl map in Hlast.
    rewrite last_cons in Hlast.
    rewrite Z.add_0_r in Hlast.
    apply (eq_trans Hlast). lia.
Qed.

Section CalendarExtras.
Context {F : Type} `{FloatOps F}.

(** X4. A table that already has one row for every day from its first to
    its last date is returned unchanged by the normalization. *)
Theorem get_new_index_daily_unchanged (df : DataFrame) (f l : date) :
  df_index df = date_range f l ->
  (f <= l)%Z ->
  rectangular df ->
  __get_new_index df = Ok df.
Proof.
  intros Hidx Hfl Hrect.
  destruct (date_range_ends Hfl) as (rest & Hdays & Hlast).
  pose proof (date_range_increasing f l) as Hinc.
  rewrite Hdays in Hidx, Hinc.
  rewrite (get_new_index_increasing df Hidx Hinc), Hlast, Hdays.
  pose proof (increasing_NoDup _ Hinc) as Hnd.
  destruct df as [idx cols]. simpl in *. subst idx. f_equal. f_equal.
  rewrite <- (map_id cols) at 2. apply map_ext_in. intros [name col] Hc.
  simpl. f_equal.
  unfold rectangular, nrows in Hrect. simpl in Hrect.
  rewrite Forall_forall in Hrect. specialize (Hrect _ Hc). simpl in Hrect.
  set (g := fun d => take col (hd_error (positions Z.eqb d (f :: rest)))).
  assert (Hlen : List.length (map g (f :: rest)) = List.length col)
    by (rewrite length_map; symmetry; exact Hrect).
  apply (nth_ext _ _ nan nan Hlen). intros i Hi. rewrite length_map in Hi.
  rewrite (nth_indep _ nan (g 0%Z)) by (rewrite length_map; exact Hi).
  rewrite (map_nth g). unfold g, positions.
  pose proof (positions_from_nth 0 Hnd Hi) as Hpos.
  unfold date in *. rewrite Hpos. reflexivity.
Qed.

(** X5. In the normalized frame of a table with strictly increasing dates
    every observation sits on the row of its own date: the row of date
    [d] is row [d - first], and it holds what the table holds for [d]. *)
Theorem get_new_index_keeps_observations (df : DataFrame) (asset : string)
        (f : date) (rest : list date) (raw : list F) (p : nat) :
  df_index df = f :: rest ->
  increasing (f :: rest) ->
  lookup asset (df_columns df) = Some raw ->
  p < List.length (f :: rest) ->
  exists cal col,
    __get_new_index df = Ok cal /\
    getitem cal asset = Ok col /\
    nth (Z.to_nat (nth p (f :: rest) 0%Z - f)) (df_index cal) 0%Z = nth p (f :: rest) 0%Z /\
    nth (Z.to_nat (nth p (f :: rest) 0%Z - f)) col nan = nth p raw nan.
Proof.
  intros Hidx Hinc Hraw Hp.
  set (d := nth p (f :: rest) 0%Z).
  assert (Hd : (f <= d <= last rest f)%Z)
    by (apply (increasing_last Hinc); apply nth_In; exact Hp).
  set (days := date_range f (last rest f)).
  assert (Hk : Z.to_nat (d - f) < List.length days)
    by (unfold days; rewrite date_range_length; lia).
  assert (Hday : nth (Z.to_nat (d - f)) days 0%Z = d)
    by (unfold days in *; rewrite date_range_nth by exact Hk; lia).
  set (g := fun raw0 : list F =>
              map (fun d0 => take raw0 (hd_error (positions Z.eqb d0 (f :: rest)))) days).
  eexists. exists (g raw).
  split; [exact (get_new_index_increasing df Hidx Hinc)|].
  split.
  - unfold getitem. simpl. rewrite (lookup_map_columns g), Hraw. reflexivity.
  - simpl. split; [exact Hday|].
    unfold g.
    rewrite (nth_indep _ nan (take raw (hd_error (positions Z.eqb 0%Z (f :: rest)))))
      by (rewrite length_map; exact Hk).
    rewrite (map_nth (fun d0 => take raw (hd_error (positions Z.eqb d0 (f :: rest))))).
    pose proof (positions_from_nth 0 (increasing_NoDup _ Hinc) Hp) as Hpos.
    unfold date in *. rewrite Hday. unfold d, positions.
    rewrite Hpos. reflexivity.
Qed.

End CalendarExtras.

(** ** Return calculator *)

Lemma mapM_raise (A B : Type) (f : A -> result B) (e : exn) (l : list A) :
  (forall x, In x l -> (exists y, f x = Ok y) \/ f x = Raise e) ->
  (exists x, In x l /\ f x = Raise e) ->
  mapM f l = Raise e.
Proof.
  induction l as [|x l IH]; intros Hall (x0 & Hin & Hx0).
  - destruct Hin.
  - simpl. destruct (Hall x (or_introl eq_refl)) as [[y Hy]|Hy].
    + rewrite Hy. simpl.
      destruct Hin as [<-|Hin]; [congruence|].
      rewrite IH; [reflexivity | | exists x0; tauto].
      intros z Hz. apply Hall. right. exact Hz.
    + rewrite Hy. reflexivity.
Qed.

Section ReturnExtras.
Context {F : Type} `{FloatOps F}.

(** X6. For an asset quoted in a currency of the exchange-rate table, the
    currency return of row [t > 0] is [(rate[t] - rate[t-1]) / rate[t-1]]
    on the gap-filled rates of the stored rows, one entry per row but the
    first. *)
Theorem currency_return_formula (self : AssetPerfomances) (asset c : string)
        (col : list F) :
  lookup asset (_currencies self) = Some c ->
  c <> "USD"%string ->
  lookup c (df_columns (_exchanges self)) = Some col ->
  exists perf self',
    __count_currency_perfomance_for_asset self asset = Ok (perf, self') /\
    List.length perf = List.length col - 1 /\
    forall t, 0 < t < List.length col ->
      nth (t - 1) perf nan =
      fdiv (fsub (gap_filled col t) (gap_filled col (t - 1))) (gap_filled col (t - 1)).
Proof.
  intros Hcur Hbase Hcol.
  unfold __count_currency_perfomance_for_asset, loc_currency, getitem.
  rewrite Hcur. simpl.
  destruct (String.eqb_spec c "USD"%string) as [E|_]; [contradiction|].
  rewrite Hcol. simpl. do 2 eexists. split; [reflexivity|]. split.
  - rewrite perfomance_for_asset_length, replace_na_values_length. reflexivity.
  - intros t Ht.
    rewrite perfomance_for_asset_nth by (rewrite replace_na_values_length; lia).
    rewrite !replace_na_values_nth by lia. reflexivity.
Qed.

(** X7. The lookup of the exchange rates of an asset never raises: it
    yields the constant [1], one per exchange-rate row, when the asset has
    no currency or its currency is no column of the table, and the
    squeezed column of the currency otherwise. *)
Theorem get_series_by_currency_never_raises (self : AssetPerfomances) (asset : string) :
  exists sq,
    __get_series_by_currency self asset = Ok sq /\
    (lookup asset (_currencies self) = None ->
     sq = Column (repeat fone (nrows (_exchanges self)))) /\
    (forall c, lookup asset (_currencies self) = Some c ->
               lookup c (df_columns (_exchanges self)) = None ->
               sq = Column (repeat fone (nrows (_exchanges self)))) /\
    (forall c col, lookup asset (_currencies self) = Some c ->
                   lookup c (df_columns (_exchanges self)) = Some col ->
                   sq = squeeze col).
Proof.
  unfold __get_series_by_currency, loc_currency, getitem.
  destruct (lookup asset (_currencies self)) as [c|]; simpl.
  - destruct (lookup c (df_columns (_exchanges self))) as [col|] eqn:Hcol; simpl.
    + eexists. split; [reflexivity|]. repeat split.
      * discriminate.
      * intros c' Hc' Hnone. injection Hc' as <-. congruence.
      * intros c' col' Hc' Hsome. injection Hc' as <-. congruence.
    + eexists. split; [reflexivity|]. repeat split.
      intros c' col' Hc' Hsome. injection Hc' as <-. congruence.
  - eexists. split; [reflexivity|]. repeat split; discriminate.
Qed.

Lemma get_new_index_missing_column (df cal : DataFrame) (asset : string) :
  __get_new_index df = Ok cal ->
  lookup asset (df_columns df) = None ->
  getitem cal asset = Raise KeyError.
Proof.
  unfold __get_new_index. intros Hcal Hnone.
  destruct (df_index df) as [|f rest]; [discriminate|].
  injection Hcal as <-. unfold getitem. simpl.
  set (rows := join_rows _ _).
  rewrite (lookup_map_columns (fun raw0 => map (fun r => take raw0 (snd r)) rows)).
  rewrite Hnone. reflexivity.
Qed.

(** X8. Asking the price return or the total return of an asset the price
    table does not have raises [KeyError]. *)
Theorem missing_asset_raises_key_error (self : AssetPerfomances) (asset : string) :
  df_index (_prices self) <> [] ->
  lookup asset (df_columns (_prices self)) = None ->
  __count_return_prices_for_asset self asset = Raise KeyError /\
  __count_total_perfomance_for_asset self asset = Raise KeyError.
Proof.
  intros Hne Hnone.
  unfold __count_return_prices_for_asset, __count_total_perfomance_for_asset.
  destruct (__get_new_index (_prices self)) as [cal|e] eqn:Hcal.
  - simpl. rewrite (get_new_index_missing_column _ _ Hcal Hnone). split; reflexivity.
  - unfold __get_new_index in Hcal.
    destruct (df_index (_prices self)); [congruence | discriminate].
Qed.

(** X9. A price table without rows makes every return computation, and
    the construction of the object, raise [IndexError]. *)
Theorem empty_prices_raise_index_error (self : AssetPerfomances) (asset : string) :
  df_index (_prices self) = [] ->
  __count_return_prices_for_asset self asset = Raise IndexError /\
  __count_total_perfomance_for_asset self asset = Raise IndexError /\
  _calculate_price_perfomance_for_all_assets self = Raise IndexError /\
  TotalPerfomance_init self = Raise IndexError.
Proof.
  intros Hempty.
  assert (Hcal : __get_new_index (_prices self) = Raise IndexError)
    by (unfold __get_new_index; rewrite Hempty; reflexivity).
  assert (Hret : forall a, __count_return_prices_for_asset self a = Raise IndexError)
    by (intros a; unfold __count_return_prices_for_asset; rewrite Hcal; reflexivity).
  assert (Hall : _calculate_price_perfomance_for_all_assets self = Raise IndexError).
  { unfold _calculate_price_perfomance_for_all_assets.
    destruct (columns (_prices self)) as [|c cols]; simpl.
    - rewrite Hcal. reflexivity.
    - rewrite Hret. reflexivity. }
  split; [apply Hret|]. split.
  - unfold __count_total_perfomance_for_asset. rewrite Hcal. reflexivity.
  - split; [exact Hall|].
    unfold TotalPerfomance_init, PerfomancesWithWeights_init.
    rewrite Hall. reflexivity.
Qed.

Lemma get_series_by_currency_unsqueezed (self : AssetPerfomances) (asset : string) :
  (forall c x, lookup asset (_currencies self) = Some c ->
               lookup c (df_columns (_exchanges self)) <> Some [x]) ->
  __get_series_by_currency self asset = Ok (Column (applicable_rate self asset)).
Proof.
  unfold __get_series_by_currency, applicable_rate, loc_currency, getitem.
  intros Hrows.
  destruct (lookup asset (_currencies self)) as [c|]; simpl; [|reflexivity].
  specialize (Hrows c).
  destruct (lookup c (df_columns (_exchanges self))) as [col|]; simpl; [|reflexivity].
  destruct col as [|x [|y col]]; simpl in *; try reflexivity.
  exfalso. apply (Hrows x); reflexivity.
Qed.

(** X10. When the exchange rates that apply to the asset (the column of
    its currency, or a [1] for each row of the exchange-rate table when
    the currency is no column of it) have fewer rows than the normalized
    price calendar has days, the calendar having at least two days, the
    total return raises [IndexError]; unless the column of the currency
    has exactly one row, which [squeeze()] turns into a scalar. *)
Theorem short_exchange_table_raises_index_error (self : AssetPerfomances)
        (asset : string) (raw : list F) (cal : DataFrame) :
  __get_new_index (_prices self) = Ok cal ->
  lookup asset (df_columns (_prices self)) = Some raw ->
  (forall c x, lookup asset (_currencies self) = Some c ->
               lookup c (df_columns (_exchanges self)) <> Some [x]) ->
  List.length (applicable_rate self asset) < nrows cal ->
  2 <= nrows cal ->
  __count_total_perfomance_for_asset self asset = Raise IndexError.
Proof.
  intros Hcal Hraw Hsq Hshort Htwo.
  assert (Hne : df_index (_prices self) <> []).
  { unfold __get_new_index in Hcal. destruct (df_index (_prices self)); [discriminate|].
    discriminate. }
  destruct (get_new_index_column _ _ Hne Hraw) as (cal' & col & Hcal' & Hget & Hlen).
  rewrite Hcal in Hcal'. injection Hcal' as <-.
  unfold __count_total_perfomance_for_asset. rewrite Hcal. simpl.
  rewrite Hget. simpl. rewrite (get_series_by_currency_unsqueezed _ _ Hsq). simpl.
  set (rate := applicable_rate self asset) in *.
  rewrite replace_na_values_length, Hlen.
  apply mapM_raise.
  - intros i Hi. apply in_seq in Hi.
    destruct (Nat.lt_ge_cases i (List.length rate)) as [Hin|Hout].
    + left. rewrite (item_in_range rate nan (i := i)) by exact Hin. simpl.
      rewrite (item_in_range rate nan (i := i - 1)) by lia. simpl.
      eexists. reflexivity.
    + right. rewrite (item_out_of_range rate Hout). reflexivity.
  - exists (nrows cal - 1). split; [apply in_seq; lia|].
    rewrite (item_out_of_range rate (i := nrows cal - 1)) by lia. reflexivity.
Qed.

(** X11. When the exchange-rate table has a single row, the rates of a
    known currency squeeze to a scalar and the total return raises
    [AttributeError]. *)
Theorem single_row_exchange_raises_attribute_error (self : AssetPerfomances)
        (asset c : string) (raw : list F) (x : F) :
  df_index (_prices self) <> [] ->
  lookup asset (df_columns (_prices self)) = Some raw ->
  lookup asset (_currencies self) = Some c ->
  lookup c (df_columns (_exchanges self)) = Some [x] ->
  __count_total_perfomance_for_asset self asset = Raise AttributeError.
Proof.
  intros Hne Hraw Hcur Hcol.
  destruct (get_new_index_column _ _ Hne Hraw) as (cal & col & Hcal & Hget & _).
  unfold __count_total_perfomance_for_asset. rewrite Hcal. simpl.
  rewrite Hget. simpl.
  unfold __get_series_by_currency, loc_currency, getitem.
  rewrite Hcur. simpl. rewrite Hcol. reflexivity.
Qed.

End ReturnExtras.

(** ** Frames of returns *)

Lemma lookup_map_keys (A : Type) (s : string -> A) (name : string) (cols : list string) :
  In name cols -> lookup name (map (fun c => (c, s c)) cols) = Some (s name).
Proof.
  induction cols as [|c cols IH]; intros Hin; simpl.
  - destruct Hin.
  - destruct (String.eqb_spec name c) as [->|Hne]; [reflexivity|].
    apply IH. destruct Hin as [Hin|Hin]; [congruence | exact Hin].
Qed.

Section FrameExtras.
Context {F : Type} `{FloatOps F}.

Lemma set_column_fresh (name : string) (col : list F) (cols : list (string * list F)) :
  ~ In name (map fst cols) -> set_column name col cols = cols ++ [(name, col)].
Proof.
  induction cols as [|c cols IH]; intros Hfresh; simpl.
  - reflexivity.
  - destruct (String.eqb_spec name (fst c)) as [E|_].
    + exfalso. apply Hfresh. left. symmetry. exact E.
    + rewrite IH; [reflexivity|]. intros Hin. apply Hfresh. right. exact Hin.
Qed.

Lemma reindex_range_same_length (s : list F) :
  reindex_range (List.length s) s = s.
Proof.
  unfold reindex_range. rewrite firstn_all, Nat.sub_diag. apply app_nil_r.
Qed.

Lemma setitem_frame_of (s : string -> list F) (n : nat) (done : list string) (c : string) :
  ~ In c done ->
  List.length (s c) = n ->
  setitem (frame_of s n done) c (s c) = frame_of s n (done ++ [c]).
Proof.
  intros Hfresh Hlen.
  assert (Hcols : forall v, set_column c v (map (fun c0 => (c0, s c0)) done) =
                            map (fun c0 => (c0, s c0)) done ++ [(c, v)]).
  { intros v. apply set_column_fresh. rewrite map_map. simpl. rewrite map_id.
    exact Hfresh. }
  assert (Hnew : frame_of s n (done ++ [c]) =
                 {| df_index := if n =? 0 then [] else range_index n;
                    df_columns := map (fun c0 => (c0, s c0)) done ++ [(c, s c)] |}).
  { unfold frame_of. rewrite length_app, map_app. cbn [List.length map].
    replace (List.length done + 1 =? 0) with false by (symmetry; apply Nat.eqb_neq; lia).
    reflexivity. }
  rewrite Hnew. clear Hnew. unfold setitem, frame_of, nrows. cbn [df_index df_columns].
  rewrite Hlen.
  destruct (Nat.eqb_spec n 0) as [Hn|Hn].
  - rewrite orb_true_r. cbn [List.length Nat.eqb negb andb].
    rewrite Hcols. subst n.
    destruct (s c); [reflexivity | discriminate].
  - rewrite orb_false_r. cbn [negb]. rewrite andb_true_r.
    destruct done as [|d done].
    + reflexivity.
    + cbn [List.length Nat.eqb].
      assert (Hri : List.length (range_index n) = n)
        by (unfold range_index; rewrite length_map, length_seq; reflexivity).
      rewrite !Hri.
      replace (n =? 0) with false by (symmetry; apply Nat.eqb_neq; exact Hn).
      rewrite Hcols.
      replace (reindex_range n (s c)) with (s c)
        by (rewrite <- Hlen; symmetry; apply reindex_range_same_length).
      reflexivity.
Qed.

Lemma assign_all_frame_of (f : string -> result (list F)) (s : string -> list F)
      (n : nat) (cols done : list string) :
  NoDup (done ++ cols) ->
  (forall c, In c cols -> f c = Ok (s c) /\ List.length (s c) = n) ->
  assign_all f (frame_of s n done) cols = Ok (frame_of s n (done ++ cols)).
Proof.
  revert done. induction cols as [|c cols IH]; intros done Hnd Hf.
  - rewrite app_nil_r. reflexivity.
  - destruct (Hf c (or_introl eq_refl)) as [Hc Hlen].
    simpl. rewrite Hc. simpl.
    rewrite setitem_frame_of; [| |exact Hlen].
    + replace (done ++ c :: cols) with ((done ++ [c]) ++ cols)
        by (rewrite <- app_assoc; reflexivity).
      apply IH.
      * rewrite <- app_assoc. exact Hnd.
      * intros c' Hc'. apply Hf. right. exact Hc'.
    + apply NoDup_remove_2 in Hnd. intros Hin. apply Hnd.
      apply in_or_app. left. exact Hin.
Qed.

(** A frame of per-asset series on the calendar [cal]: when every asset
    yields a series with one entry per day but the first, the frame is
    indexed by these days and holds the series of each asset. *)
Lemma all_assets_frame (f : string -> result (list F)) (cal : @DataFrame F)
      (cols : list string) :
  cols <> [] ->
  NoDup cols ->
  (forall c, In c cols -> exists perf, f c = Ok perf /\ List.length perf = nrows cal - 1) ->
  exists frame,
    (perform_df <- assign_all f empty_frame cols ;;
     set_index perform_df (tl (df_index cal))) = Ok frame /\
    df_index frame = tl (df_index cal) /\
    columns frame = cols /\
    rectangular frame /\
    forall c, In c cols -> exists perf, f c = Ok perf /\ getitem frame c = Ok perf.
Proof.
  intros Hne Hnd Hf.
  set (s := fun c => match f c with Ok perf => perf | Raise _ => [] end).
  assert (Hs : forall c, In c cols -> f c = Ok (s c) /\ List.length (s c) = nrows cal - 1).
  { intros c Hc. destruct (Hf c Hc) as (perf & Hperf & Hlen).
    unfold s. rewrite Hperf. split; [reflexivity | exact Hlen]. }
  pose proof (@assign_all_frame_of f s (nrows cal - 1) cols [] Hnd Hs) as Hloop.
  change (frame_of s (nrows cal - 1) []) with (@empty_frame F) in Hloop.
  rewrite Hloop. cbn [bind app].
  assert (Hrows : nrows (frame_of s (nrows cal - 1) cols) = List.length (tl (df_index cal))).
  { unfold nrows, frame_of. cbn [df_index].
    replace (List.length (tl (df_index cal))) with (List.length (df_index cal) - 1)
      by (destruct (df_index cal); simpl; lia).
    destruct cols as [|c cols]; [congruence|]. cbn [List.length Nat.eqb orb].
    destruct (Nat.eqb_spec (List.length (df_index cal) - 1) 0) as [E|E].
    - rewrite E. reflexivity.
    - unfold range_index. rewrite length_map, length_seq. reflexivity. }
  unfold set_index. rewrite Hrows, Nat.eqb_refl.
  eexists. split; [reflexivity|]. cbn [df_index df_columns frame_of].
  split; [reflexivity|]. split.
  - unfold columns. cbn [df_columns]. rewrite map_map. simpl. apply map_id.
  - split.
    + unfold rectangular, nrows. cbn [df_index df_columns].
      apply Forall_forall. intros [name col] Hin. apply in_map_iff in Hin.
      destruct Hin as (c & Hc & Hin). injection Hc as <- <-. cbn [snd].
      rewrite (proj2 (Hs c Hin)). unfold nrows.
      destruct (df_index cal); simpl; lia.
    + intros c Hc. exists (s c). split; [exact (proj1 (Hs c Hc))|].
      unfold getitem. cbn [df_columns]. rewrite (lookup_map_keys s c cols Hc). reflexivity.
Qed.

(** X12. For a price table with at least one row and one asset, the frame
    of price returns is built: it is indexed by the days of the normalized
    calendar but the first, has the assets of the price table as columns,
    one cell per row, and holds for each asset its price return. *)
Theorem price_perfomance_frame (self : AssetPerfomances) :
  df_index (_prices self) <> [] ->
  columns (_prices self) <> [] ->
  NoDup (columns (_prices self)) ->
  exists cal frame,
    __get_new_index (_prices self) = Ok cal /\
    _calculate_price_perfomance_for_all_assets self = Ok frame /\
    df_index frame = tl (df_index cal) /\
    columns frame = columns (_prices self) /\
    rectangular frame /\
    forall asset, In asset (columns (_prices self)) ->
      exists perf, __count_return_prices_for_asset self asset = Ok perf /\
                   getitem frame asset = Ok perf.
Proof.
  intros Hne Hcols Hnd.
  destruct (__get_new_index (_prices self)) as [cal|e] eqn:Hcal.
  2:{ unfold __get_new_index in Hcal.
      destruct (df_index (_prices self)); [congruence | discriminate]. }
  destruct (@all_assets_frame (__count_return_prices_for_asset self) cal
              (columns (_prices self)) Hcols Hnd) as (frame & Hframe & Hrest).
  - intros c Hc. destruct (lookup_in_columns _ _ Hc) as [raw Hraw].
    destruct (get_new_index_column _ _ Hne Hraw) as (cal' & col & Hcal' & Hget & Hlen).
    rewrite Hcal in Hcal'. injection Hcal' as <-.
    eexists. split.
    + unfold __count_return_prices_for_asset. rewrite Hcal. simpl.
      rewrite Hget. reflexivity.
    + rewrite perfomance_for_asset_length, replace_na_values_length, Hlen. reflexivity.
  - exists cal, frame. split; [reflexivity|]. split; [|exact Hrest].
    unfold _calculate_price_perfomance_for_all_assets.
    destruct (assign_all (__count_return_prices_for_asset self) empty_frame
                         (columns (_prices self))) as [df|e]; simpl in *.
    + rewrite Hcal. exact Hframe.
    + discriminate.
Qed.


End FrameExtras.

Section CurrencyFrame.
Context {F : Type} `{FloatOps F}.

Lemma lookup_set_column (name c : string) (v : list F) (cols : list (string * list F)) :
  lookup name (set_column c v cols) =
  if String.eqb name c then Some v else lookup name cols.
Proof.
  induction cols as [|[k w] cols IH]; simpl.
  - destruct (String.eqb name c); reflexivity.
  - destruct (String.eqb_spec c k) as [->|Hck]; simpl.
    + destruct (String.eqb name k); reflexivity.
    + rewrite IH. destruct (String.eqb_spec name c) as [->|Hnc].
      * destruct (String.eqb_spec c k); [contradiction | reflexivity].
      * reflexivity.
Qed.

Lemma same_shape_refl (a : @AssetPerfomances F) : same_shape a a.
Proof.
  repeat split.
Qed.

Lemma same_shape_trans (a b c : @AssetPerfomances F) :
  same_shape a b -> same_shape b c -> same_shape a c.
Proof.
  intros (P1 & C1 & W1 & I1 & L1) (P2 & C2 & W2 & I2 & L2).
  repeat split; try congruence; intros name; rewrite L1; apply L2.
Qed.

(** The currency return changes nothing of the object but the cells of
    the exchange rates it has filled. *)
Lemma count_currency_same_shape (self self' : AssetPerfomances) (asset : string)
      (perf : list F) :
  __count_currency_perfomance_for_asset self asset = Ok (perf, self') ->
  same_shape self self'.
Proof.
  unfold __count_currency_perfomance_for_asset, loc_currency, getitem.
  destruct (lookup asset (_currencies self)) as [c|]; simpl; [|discriminate].
  destruct (String.eqb c "USD").
  - intros Hok. injection Hok as _ <-. apply same_shape_refl.
  - destruct (lookup c (df_columns (_exchanges self))) as [col|] eqn:Hcol; simpl;
      [|discriminate].
    intros Hok. injection Hok as _ <-. repeat split. simpl.
    intros name. rewrite lookup_set_column.
    destruct (String.eqb_spec name c) as [->|_]; [|reflexivity].
    rewrite Hcol. simpl. rewrite replace_na_values_length. reflexivity.
Qed.

Lemma count_currency_known (self self' : AssetPerfomances) (asset : string) :
  rectangular (_exchanges self) ->
  same_shape self self' ->
  known_currency self asset ->
  exists perf self'',
    __count_currency_perfomance_for_asset self' asset = Ok (perf, self'') /\
    List.length perf = nrows (_exchanges self) - 1.
Proof.
  intros Hrect (_ & Hcur & _ & Hidx & Hlook) (c & Hc & Hknown).
  unfold __count_currency_perfomance_for_asset, loc_currency, getitem.
  rewrite <- Hcur, Hc. simpl.
  destruct (String.eqb_spec c "USD"%string) as [->|Hne].
  - do 2 eexists. split; [reflexivity|].
    rewrite repeat_length. unfold nrows. rewrite Hidx. reflexivity.
  - destruct Hknown as [E|[col Hcol]]; [contradiction|].
    specialize (Hlook c). rewrite Hcol in Hlook. simpl in Hlook.
    destruct (lookup c (df_columns (_exchanges self'))) as [col'|]; simpl in *;
      [|discriminate].
    do 2 eexists. split; [reflexivity|].
    rewrite perfomance_for_asset_length, replace_na_values_length.
    injection Hlook as Hlen. rewrite <- Hlen.
    rewrite (lookup_rectangular _ Hrect Hcol). reflexivity.
Qed.

Lemma setitem_nrows (df : DataFrame) (name : string) (s : list F) (n : nat) :
  List.length s = n ->
  nrows df = 0 \/ nrows df = n ->
  nrows (setitem df name s) = n.
Proof.
  intros Hlen Hrows. unfold setitem.
  destruct (Nat.eqb_spec (nrows df) 0) as [E0|E0];
    destruct (Nat.eqb_spec (List.length s) 0) as [Es|Es]; cbn [negb andb].
  - unfold nrows in *. cbn [df_index]. lia.
  - unfold nrows. cbn [df_index]. unfold range_index.
    rewrite length_map, length_seq. exact Hlen.
  - unfold nrows in *. cbn [df_index]. lia.
  - unfold nrows in *. cbn [df_index]. lia.
Qed.

Lemma assign_all_currency_known (self : AssetPerfomances) (cols : list string) :
  rectangular (_exchanges self) ->
  (forall a, In a cols -> known_currency self a) ->
  forall (self' : AssetPerfomances) (df : DataFrame),
    same_shape self self' ->
    nrows df = 0 \/ nrows df = nrows (_exchanges self) - 1 ->
    exists df' self'',
      assign_all_currency self' df cols = Ok (df', self'') /\
      same_shape self self'' /\
      (nrows df' = nrows (_exchanges self) - 1 \/ cols = [] /\ nrows df' = nrows df).
Proof.
  intros Hrect. induction cols as [|c cols IH]; intros Hknown self' df Hshape Hrows.
  - exists df, self'. split; [reflexivity|]. split; [exact Hshape|]. right. tauto.
  - destruct (@count_currency_known self self' c Hrect Hshape (Hknown c (or_introl eq_refl)))
      as (perf & self1 & Hcount & Hlen).
    simpl. rewrite Hcount. simpl.
    destruct (IH (fun a Ha => Hknown a (or_intror Ha)) self1 (setitem df c perf))
      as (df' & self'' & Hloop & Hshape' & Hrows').
    + exact (same_shape_trans Hshape (@count_currency_same_shape _ _ _ _ Hcount)).
    + right. exact (@setitem_nrows df c perf _ Hlen Hrows).
    + exists df', self''. split; [exact Hloop|]. split; [exact Hshape'|].
      left. destruct Hrows' as [E|[_ E]]; [exact E|].
      rewrite E. exact (@setitem_nrows df c perf _ Hlen Hrows).
Qed.


End CurrencyFrame.

(** ** Prepared weights *)

Lemma firstn_seq (k a n : nat) : firstn k (seq a n) = seq a (Nat.min k n).
Proof.
  revert a n. induction k as [|k IH]; intros a n; [reflexivity|].
  destruct n as [|n]; [reflexivity|].
  simpl. rewrite IH. reflexivity.
Qed.

Lemma removelast_date_range (a b : date) :
  removelast (date_range a b) = date_range a (b - 1)%Z.
Proof.
  rewrite removelast_firstn_len, date_range_length. unfold date_range.
  rewrite firstn_map, firstn_seq. f_equal. f_equal. lia.
Qed.

Lemma removelast_length (A : Type) (l : list A) :
  List.length (removelast l) = List.length l - 1.
Proof.
  rewrite removelast_firstn_len, length_firstn. lia.
Qed.

Lemma removelast_nth (A : Type) (l : list A) (k : nat) (d : A) :
  k < List.length l - 1 -> nth k (removelast l) d = nth k l d.
Proof.
  intros Hk. rewrite removelast_firstn_len, nth_firstn.
  destruct (Nat.ltb_spec k (Init.Nat.pred (List.length l))); [reflexivity | lia].
Qed.

Section WeightExtras.
Context {F : Type} `{FloatOps F}.

(** X15. For a weight table with strictly increasing dates, the prepared
    weights are indexed by every day from the first date to the day before
    the last one and hold, for each asset and day, the gap-filled weight
    of the normalized table; a weight table without rows raises
    [IndexError]. *)
Theorem prepare_weights_frame (self : AssetPerfomances) :
  (df_index (_weights self) = [] -> _prepare_weights_df self = Raise IndexError) /\
  (forall (asset : string) (f : date) (rest : list date) (raw : list F),
      df_index (_weights self) = f :: rest ->
      increasing (f :: rest) ->
      lookup asset (df_columns (_weights self)) = Some raw ->
      exists cal col w wcol,
        __get_new_index (_weights self) = Ok cal /\
        getitem cal asset = Ok col /\
        _prepare_weights_df self = Ok w /\
        df_index w = date_range f (last rest f - 1)%Z /\
        getitem w asset = Ok wcol /\
        List.length wcol = nrows w /\
        forall k, k < nrows w -> nth k wcol nan = gap_filled col k).
Proof.
  split.
  - intros Hempty. unfold _prepare_weights_df, __get_new_index.
    rewrite Hempty. reflexivity.
  - intros asset f rest raw Hidx Hinc Hraw.
    pose proof (get_new_index_increasing (_weights self) Hidx Hinc) as Hcal.
    set (days := date_range f (last rest f)) in *.
    set (g := fun raw0 : list F =>
                map (fun d => take raw0 (hd_error (positions Z.eqb d (f :: rest)))) days)
      in *.
    assert (Hglen : List.length (g raw) = List.length days)
      by (unfold g; apply length_map).
    eexists. exists (g raw). eexists. exists (removelast (bfill (ffill (g raw)))).
    split; [exact Hcal|]. split.
    { unfold getitem. cbn [df_columns].
      rewrite (lookup_map_columns g), Hraw. reflexivity. }
    split.
    { unfold _prepare_weights_df. rewrite Hcal. reflexivity. }
    unfold drop_last_row, nrows. cbn [df_index df_columns].
    split; [apply removelast_date_range|]. split.
    { unfold getitem. cbn [df_columns].
      rewrite (lookup_map_columns (fun c => removelast c)).
      rewrite (lookup_map_columns (fun c => bfill (ffill c))).
      rewrite (lookup_map_columns g), Hraw. reflexivity. }
    assert (Hfill : List.length (bfill (ffill (g raw))) = List.length days)
      by (rewrite <- Hglen; apply (replace_na_values_length (g raw))).
    split.
    { rewrite !removelast_length, Hfill. reflexivity. }
    intros k Hk. rewrite removelast_length in Hk.
    rewrite removelast_nth by (rewrite Hfill; exact Hk).
    apply (replace_na_values_nth (g raw)). rewrite Hglen. lia.
Qed.

(** X16. The three portfolio-level return series hold, on every day of
    the outer join of the return dates and the weight dates, the sum over
    the assets of return times weight, both read on that day and missing
    where the frame has no such day or asset. *)
Theorem weighted_series_by_label (self : PerfomancesWithWeights) :
  rectangular (__weights self) ->
  NoDup (df_index (__weights self)) ->
  (rectangular (__rt self) -> NoDup (df_index (__rt self)) ->
   _calculate_price_perfomance_according_on_weights self =
   map (fun d => (d, weighted_sum (__rt self) (__weights self) d))
       (outer_join Z.eqb Z.ltb (df_index (__rt self)) (df_index (__weights self)))) /\
  (rectangular (__crt self) -> NoDup (df_index (__crt self)) ->
   _calculate_currency_perfomance_according_on_weights self =
   map (fun d => (d, weighted_sum (__crt self) (__weights self) d))
       (outer_join Z.eqb Z.ltb (df_index (__crt self)) (df_index (__weights self)))) /\
  (rectangular (__trt self) -> NoDup (df_index (__trt self)) ->
   _calculate_total_perfomance_according_on_weights self =
   map (fun d => (d, weighted_sum (__trt self) (__weights self) d))
       (outer_join Z.eqb Z.ltb (df_index (__trt self)) (df_index (__weights self)))).
Proof.
  intros Hrw Hnw.
  repeat split; intros Hr Hn; apply according_on_weights_by_label; assumption.
Qed.

End WeightExtras.

(** ** Calendars of the portfolio-level series *)

Lemma insert_label_increasing (x : date) (l : list date) :
  increasing l -> increasing (insert_label Z.eqb Z.ltb x l).
Proof.
  induction l as [|y l IH]; intros Hinc.
  - simpl. split; [intros z []|exact I].
  - destruct Hinc as [Hy Hl]. simpl.
    destruct (Z.eqb_spec x y) as [->|Hne].
    + split; assumption.
    + destruct (Z.ltb_spec x y) as [Hlt|Hge].
      * split; [|split; assumption].
        intros z [<-|Hz]; [exact Hlt|]. specialize (Hy z Hz). lia.
      * split; [|apply IH; exact Hl].
        intros z Hz. apply in_insert_label in Hz.
        destruct Hz as [->|Hz]; [lia | apply Hy; exact Hz].
Qed.

Lemma sort_labels_increasing (l : list date) :
  increasing (sort_labels Z.eqb Z.ltb l).
Proof.
  unfold sort_labels. induction l as [|x l IH]; simpl.
  - exact I.
  - apply insert_label_increasing. exact IH.
Qed.

Lemma outer_join_increasing (a b : list date) :
  increasing a -> increasing b -> increasing (outer_join Z.eqb Z.ltb a b).
Proof.
  intros Ha Hb. unfold outer_join.
  destruct (list_eqb Z.eqb a b); [exact Ha|].
  destruct a as [|x a]; [exact Hb|].
  destruct b as [|y b]; [exact Ha|].
  apply sort_labels_increasing.
Qed.

Lemma increasing_tl (l : list date) : increasing l -> increasing (tl l).
Proof.
  destruct l as [|x l]; [intros _; exact I | intros [_ Hl]; exact Hl].
Qed.

Lemma in_removelast (A : Type) (x : A) (l : list A) : In x (removelast l) -> In x l.
Proof.
  rewrite removelast_firstn_len. apply in_firstn.
Qed.

Lemma increasing_removelast (l : list date) : increasing l -> increasing (removelast l).
Proof.
  induction l as [|x l IH]; intros Hinc; [exact I|].
  destruct Hinc as [Hx Hl]. destruct l as [|y l]; [exact I|].
  change (removelast (x :: y :: l)) with (x :: removelast (y :: l)).
  split; [|apply IH; exact Hl].
  intros z Hz. apply Hx. apply in_removelast. exact Hz.
Qed.

Lemma increasing_nth_lt (l : list date) (i j : nat) :
  increasing l -> i < j -> j < List.length l -> (nth i l 0 < nth j l 0)%Z.
Proof.
  revert i j. induction l as [|x l IH]; intros i j Hinc Hij Hj; simpl in Hj.
  - lia.
  - destruct Hinc as [Hx Hl]. destruct j as [|j]; [lia|].
    destruct i as [|i]; simpl.
    + apply Hx. apply nth_In. lia.
    + apply IH; [exact Hl | lia | lia].
Qed.

Lemma increasing_nth_le (l : list date) (i j : nat) :
  increasing l -> i <= j -> j < List.length l -> (nth i l 0 <= nth j l 0)%Z.
Proof.
  intros Hinc Hij Hj. destruct (Nat.eq_dec i j) as [->|Hne]; [lia|].
  pose proof (@increasing_nth_lt l i j Hinc ltac:(lia) Hj). lia.
Qed.

Lemma filter_none_above (lo hi : date) (l : list date) :
  (forall z, In z l -> (hi < z)%Z) ->
  filter (fun d => (lo <=? d)%Z && (d <=? hi)%Z) l = [].
Proof.
  induction l as [|y l IH]; intros Habove; [reflexivity|].
  cbn [filter].
  replace (y <=? hi)%Z with false
    by (symmetry; apply Z.leb_gt; apply Habove; left; reflexivity).
  rewrite andb_false_r. apply IH. intros z Hz. apply Habove. right. exact Hz.
Qed.

(** On a strictly increasing index the slice between two positions holds
    the dates between the two labels. *)
Lemma loc_slice_dates_between (l : list date) (s e : nat) :
  increasing l -> s <= e -> e < List.length l ->
  loc_slice l s e = dates_between (nth s l 0%Z) (nth e l 0%Z) l.
Proof.
  unfold loc_slice, dates_between.
  revert s e. induction l as [|x l IH]; intros s e Hinc Hse He; simpl in He.
  - lia.
  - pose proof Hinc as [Hx Hl]. destruct s as [|s].
    + cbn [nth skipn filter]. rewrite Z.leb_refl. cbn [andb].
      pose proof (@increasing_nth_le (x :: l) 0 e Hinc ltac:(lia) ltac:(simpl; lia)) as Hxe.
      cbn [nth] in Hxe. rewrite (proj2 (Z.leb_le _ _) Hxe).
      rewrite Nat.sub_0_r. cbn [firstn]. f_equal.
      destruct e as [|e].
      * cbn [nth firstn]. symmetry. apply filter_none_above. exact Hx.
      * cbn [nth]. specialize (IH 0 e Hl ltac:(lia) ltac:(lia)).
        rewrite Nat.sub_0_r in IH. cbn [skipn] in IH. rewrite IH.
        apply filter_ext_in. intros d Hd.
        assert (Hxd : (x < d)%Z) by (apply Hx; exact Hd).
        replace (x <=? d)%Z with true by (symmetry; apply Z.leb_le; lia).
        assert (Hyd : (nth 0 l 0 <= d)%Z).
        { apply In_nth with (d := 0%Z) in Hd. destruct Hd as (k & Hk & <-).
          apply increasing_nth_le; [exact Hl | lia | exact Hk]. }
        rewrite (proj2 (Z.leb_le _ _) Hyd). reflexivity.
    + destruct e as [|e]; [lia|]. cbn [nth skipn filter].
      assert (Hlt : (x < nth s l 0)%Z) by (apply Hx; apply nth_In; lia).
      replace (nth s l 0 <=? x)%Z with false by (symmetry; apply Z.leb_gt; exact Hlt).
      cbn [andb]. replace (S (S e) - S s) with (S e - s) by lia.
      apply IH; [exact Hl | lia | lia].
Qed.

Lemma get_loc_increasing (idx : list date) (d : date) :
  increasing idx -> In d idx -> exists p, get_loc idx d = Ok (At p).
Proof.
  intros Hinc Hd. unfold get_loc, positions.
  destruct (positions_from_unique 0 d (increasing_NoDup _ Hinc)) as [E|[p E]].
  - exfalso. exact (positions_from_present 0 d idx Hd E).
  - exists p. rewrite E. reflexivity.
Qed.

Section QueryExtras.
Context {F : Type} `{FloatOps F}.

Lemma compound_range_by_dates (seed : F) (column : Series) :
  increasing (s_index column) ->
  answers_by_dates column (compound_range seed column).
Proof.
  intros Hinc sd ed Hsd Hed.
  destruct (@get_loc_increasing _ _ Hinc Hsd) as [s Hs].
  destruct (@get_loc_increasing _ _ Hinc Hed) as [e He].
  destruct (get_loc_position _ _ Hs) as [Hslt Hsnth].
  destruct (get_loc_position _ _ He) as [Helt Henth].
  split.
  - intros Hle.
    assert (Hse : s <= e).
    { destruct (Nat.le_gt_cases s e) as [Hok|Hbad]; [exact Hok|].
      pose proof (@increasing_nth_lt _ e s Hinc Hbad Hslt). lia. }
    rewrite (compound_range_ok seed column _ _ Hs He Hse).
    eexists. split; [reflexivity|].
    unfold s_index at 1. rewrite map_fst_combine.
    + rewrite (@loc_slice_dates_between _ _ _ Hinc Hse Helt), Hsnth, Henth. reflexivity.
    + rewrite loc_slice_length by exact Helt.
      rewrite cumulative_length, length_firstn, length_skipn.
      rewrite <- (series_lengths column). lia.
  - intros Hgt.
    assert (Hes : e < s).
    { destruct (Nat.le_gt_cases s e) as [Hbad|Hok]; [|exact Hok].
      pose proof (@increasing_nth_le _ s e Hinc Hbad Helt). lia. }
    exact (compound_range_value_error seed column _ _ Hs He Hes).
Qed.

(** X17. On a return series whose dates strictly increase, each of the
    three queries answers by dates: for two dates of the calendar it
    returns the series over the dates from the start date to the end date
    when the start date is not after the end date, and raises
    [ValueError] otherwise. *)
Theorem queries_answer_by_dates (self : TotalPerfomance) :
  (increasing (s_index (__res_t self)) ->
   answers_by_dates (__res_t self) (calculate_asset_performance self)) /\
  (increasing (s_index (__currency_res_t self)) ->
   answers_by_dates (__currency_res_t self) (calculate_currency_performance self)) /\
  (increasing (s_index (__total_res_t self)) ->
   answers_by_dates (__total_res_t self) (calculate_total_performance self)).
Proof.
  split; [|split]; intros Hinc; exact (@compound_range_by_dates _ _ Hinc).
Qed.

Lemma get_new_index_keeps_increasing (df cal : @DataFrame F) :
  __get_new_index df = Ok cal ->
  increasing (df_index df) ->
  increasing (df_index cal).
Proof.
  intros Hcal Hinc.
  destruct (df_index df) as [|f rest] eqn:Hidx.
  - unfold __get_new_index in Hcal. rewrite Hidx in Hcal. discriminate.
  - rewrite (get_new_index_increasing df Hidx Hinc) in Hcal.
    injection Hcal as <-. apply date_range_increasing.
Qed.

Lemma set_index_ok (df df' : @DataFrame F) (idx : list date) :
  set_index df idx = Ok df' -> df_index df' = idx.
Proof.
  unfold set_index. destruct (nrows df =? List.length idx); [|discriminate].
  intros Hok. injection Hok as <-. reflexivity.
Qed.

Lemma assign_all_currency_same_shape (cols : list string) :
  forall (self self' : AssetPerfomances) (df df' : DataFrame),
    assign_all_currency self df cols = Ok (df', self') ->
    same_shape self self'.
Proof.
  induction cols as [|c cols IH]; intros self self' df df' Hok; simpl in Hok.
  - injection Hok as _ <-. apply same_shape_refl.
  - destruct (__count_currency_perfomance_for_asset self c) as [[perf self1]|] eqn:Hc;
      simpl in Hok; [|discriminate].
    exact (same_shape_trans (@count_currency_same_shape _ _ _ _ _ _ Hc) (IH _ _ _ _ Hok)).
Qed.

(** X18. When the object is built from tables whose dates strictly
    increase, the dates of its three portfolio-level return series
    strictly increase as well, so that every date of a series has a single
    position. *)
Theorem built_series_increasing (tables : AssetPerfomances) (self : TotalPerfomance) :
  TotalPerfomance_init tables = Ok self ->
  increasing (df_index (_prices tables)) ->
  increasing (df_index (_exchanges tables)) ->
  increasing (df_index (_weights tables)) ->
  increasing (s_index (__res_t self)) /\
  increasing (s_index (__currency_res_t self)) /\
  increasing (s_index (__total_res_t self)).
Proof.
  intros Hinit Hip Hie Hiw.
  unfold TotalPerfomance_init, PerfomancesWithWeights_init in Hinit.
  destruct (_calculate_price_perfomance_for_all_assets tables) as [rt|] eqn:Hrt;
    simpl in Hinit; [|discriminate].
  destruct (_calculate_currency_perfomance_for_all_assets tables) as [[crt self1]|] eqn:Hcrt;
    simpl in Hinit; [|discriminate].
  destruct (_calculate_total_perfomance_for_all_assets self1) as [trt|] eqn:Htrt;
    simpl in Hinit; [|discriminate].
  destruct (_prepare_weights_df self1) as [w|] eqn:Hw; simpl in Hinit; [|discriminate].
  injection Hinit as <-. cbn [__res_t __currency_res_t __total_res_t].
  unfold _calculate_price_perfomance_according_on_weights,
    _calculate_currency_perfomance_according_on_weights,
    _calculate_total_perfomance_according_on_weights.
  cbn [__rt __crt __trt __weights].
  (* the object after the currency step *)
  unfold _calculate_currency_perfomance_for_all_assets in Hcrt.
  destruct (assign_all_currency tables empty_frame (columns (_prices tables)))
    as [[df1 self2]|] eqn:Hloop; simpl in Hcrt; [|discriminate].
  destruct (__get_new_index (_exchanges self2)) as [cal_e|] eqn:Hcal_e; simpl in Hcrt;
    [|discriminate].
  destruct (set_index df1 (tl (df_index cal_e))) as [crt'|] eqn:Hset; simpl in Hcrt;
    [|discriminate].
  injection Hcrt as <- <-.
  destruct (assign_all_currency_same_shape _ _ _ Hloop) as (Hp & _ & Hwt & Hidx & _).
  (* the weights *)
  assert (Hwi : increasing (df_index w)).
  { unfold _prepare_weights_df in Hw.
    destruct (__get_new_index (_weights self2)) as [cal_w|] eqn:Hcal_w; simpl in Hw;
      [|discriminate].
    injection Hw as <-. cbn [drop_last_row df_index].
    apply increasing_removelast.
    apply (get_new_index_keeps_increasing _ Hcal_w). rewrite <- Hwt. exact Hiw. }
  (* the three frames of returns *)
  assert (Hrti : increasing (df_index rt)).
  { unfold _calculate_price_perfomance_for_all_assets in Hrt.
    destruct (assign_all _ _ _) as [df|]; simpl in Hrt; [|discriminate].
    destruct (__get_new_index (_prices tables)) as [cal|] eqn:Hcal; simpl in Hrt;
      [|discriminate].
    rewrite (set_index_ok _ _ Hrt). apply increasing_tl.
    exact (get_new_index_keeps_increasing _ Hcal Hip). }
  assert (Hcrti : increasing (df_index crt')).
  { rewrite (set_index_ok _ _ Hset). apply increasing_tl.
    apply (get_new_index_keeps_increasing _ Hcal_e). rewrite <- Hidx. exact Hie. }
  assert (Htrti : increasing (df_index trt)).
  { unfold _calculate_total_perfomance_for_all_assets in Htrt.
    destruct (assign_all _ _ _) as [df|]; simpl in Htrt; [|discriminate].
    destruct (__get_new_index (_prices self2)) as [cal|] eqn:Hcal; simpl in Htrt;
      [|discriminate].
    rewrite (set_index_ok _ _ Htrt). apply increasing_tl.
    apply (get_new_index_keeps_increasing _ Hcal). rewrite <- Hp. exact Hip. }
  rewrite !according_on_weights_index.
  repeat split; apply outer_join_increasing; assumption.
Qed.

(** X19. On an index without repeated dates, looking a date up yields the
    position it has in the index, and the lookup raises [KeyError] exactly
    for the dates the index does not have. *)
Theorem get_loc_finds_position (idx : list date) :
  (forall i, NoDup idx -> i < List.length idx ->
             get_loc idx (nth i idx 0%Z) = Ok (At i)) /\
  (forall d, get_loc idx d = Raise KeyError <-> ~ In d idx).
Proof.
  split.
  - intros i Hnd Hi. unfold get_loc, positions.
    rewrite (positions_from_nth 0 Hnd Hi). reflexivity.
  - intros d. split.
    + intros Hraise Hin. destruct (get_loc_present _ _ Hin) as [l Hl]. congruence.
    + apply get_loc_absent.
Qed.

End QueryExtras.

(** ** Shared calendars *)

Lemma increasing_ext (a b : list date) :
  increasing a -> increasing b -> (forall x, In x a <-> In x b) -> a = b.
Proof.
  revert b. induction a as [|x a IH]; intros [|y b] Ha Hb Hab.
  - reflexivity.
  - exfalso. apply (proj2 (Hab y)). left. reflexivity.
  - exfalso. apply (proj1 (Hab x)). left. reflexivity.
  - destruct Ha as [Hx Ha]. destruct Hb as [Hy Hb].
    assert (Hxy : x = y).
    { destruct (proj1 (Hab x) (or_introl eq_refl)) as [E|Hin]; [congruence|].
      destruct (proj2 (Hab y) (or_introl eq_refl)) as [E|Hin']; [congruence|].
      specialize (Hx y Hin'). specialize (Hy x Hin). lia. }
    subst y. f_equal. apply IH; [exact Ha | exact Hb|].
    intros z. split; intros Hz.
    + destruct (proj1 (Hab z) (or_intror Hz)) as [E|Hin]; [|exact Hin].
      specialize (Hx z Hz). lia.
    + destruct (proj2 (Hab z) (or_intror Hz)) as [E|Hin]; [|exact Hin].
      specialize (Hy z Hz). lia.
Qed.

Lemma in_tl_or_removelast (A : Type) (x : A) (l : list A) :
  2 <= List.length l -> In x l -> In x (tl l) \/ In x (removelast l).
Proof.
  destruct l as [|y [|z l]]; simpl; try lia. intros _ [<-|Hin].
  - right. left. reflexivity.
  - left. exact Hin.
Qed.

Section SharedCalendar.
Context {F : Type} `{FloatOps F}.

(** X20. When the returns are indexed by the days of a calendar but the
    first and the weights by the days of the same calendar but the last,
    the portfolio-level series is indexed by every day of the calendar;
    on its first day every return is missing and on its last day every
    weight. *)
Theorem shared_calendar_series (perf weights : DataFrame) (f l : date) :
  (f < l)%Z ->
  df_index perf = tl (date_range f l) ->
  df_index weights = removelast (date_range f l) ->
  s_index (according_on_weights perf weights) = date_range f l /\
  (forall name, cell perf name f = nan) /\
  (forall name, cell weights name l = nan).
Proof.
  intros Hfl Hperf Hw.
  pose proof (date_range_increasing f l) as Hinc.
  destruct (@date_range_ends f l ltac:(lia)) as (rest & Hdays & Hlast).
  assert (Hlen : 2 <= List.length (date_range f l))
    by (rewrite date_range_length; lia).
  split; [|split].
  - rewrite according_on_weights_index, Hperf, Hw.
    apply increasing_ext.
    + apply outer_join_increasing;
        [apply increasing_tl | apply increasing_removelast]; exact Hinc.
    + exact Hinc.
    + intros x. rewrite in_outer_join. split.
      * intros [Hin|Hin]; [|exact (in_removelast _ _ Hin)].
        destruct (date_range f l); [destruct Hin | right; exact Hin].
      * apply in_tl_or_removelast. exact Hlen.
  - intros name. unfold cell. destruct (lookup name (df_columns perf)); [|reflexivity].
    rewrite Hperf, Hdays. cbn [tl]. unfold positions.
    rewrite positions_from_absent; [reflexivity|].
    rewrite Hdays in Hinc. destruct Hinc as [Hf _].
    intros Hin. specialize (Hf f Hin). lia.
  - intros name. unfold cell. destruct (lookup name (df_columns weights)); [|reflexivity].
    rewrite Hw. unfold positions.
    rewrite positions_from_absent; [reflexivity|].
    rewrite removelast_date_range. intros Hin.
    pose proof (date_range_increasing f (l - 1)%Z) as Hinc'.
    destruct (@date_range_ends f (l - 1)%Z ltac:(lia)) as (rest' & Hdays' & Hlast').
    rewrite Hdays' in Hin, Hinc'.
    destruct (increasing_last Hinc' Hin) as [_ Hle]. lia.
Qed.

End SharedCalendar.

(** ** Construction of the object *)

Section Construction.
Context {F : Type} `{FloatOps F}.

Lemma applicable_rate_length (tables self1 : AssetPerfomances) (asset : string) :
  rectangular (_exchanges tables) ->
  same_shape tables self1 ->
  List.length (applicable_rate self1 asset) = nrows (_exchanges tables).
Proof.
  intros Hrect (_ & Hcur & _ & Hidx & Hlook).
  assert (Hrows : nrows (_exchanges self1) = nrows (_exchanges tables))
    by (unfold nrows; rewrite Hidx; reflexivity).
  unfold applicable_rate. rewrite <- Hcur.
  destruct (lookup asset (_currencies tables)) as [c|];
    [|rewrite repeat_length; exact Hrows].
  specialize (Hlook c).
  destruct (lookup c (df_columns (_exchanges tables))) as [col|] eqn:Hcol;
    destruct (lookup c (df_columns (_exchanges self1))) as [col1|];
    simpl in Hlook; try discriminate.
  - injection Hlook as Hlen. rewrite <- Hlen.
    exact (lookup_rectangular _ Hrect Hcol).
  - rewrite repeat_length. exact Hrows.
Qed.

Lemma all_assets_bind (f : string -> result (list F)) (cols : list string)
      (cal frame : @DataFrame F) :
  (perform_df <- assign_all f empty_frame cols ;;
   set_index perform_df (tl (df_index cal))) = Ok frame ->
  (perform_df <- assign_all f empty_frame cols ;;
   new_prices <- Ok cal ;;
   set_index perform_df (tl (df_index new_prices))) = Ok frame.
Proof.
  destruct (assign_all f empty_frame cols); simpl; intros Hok; exact Hok.
Qed.

(** X21. The object is built whenever the price table has a row and
    assets of distinct names, every asset is quoted in the base currency
    or in a currency of the exchange-rate table, this table has a row for
    every day from its first to its last date, at least as many rows as
    the price calendar has days and more than one, and the weight table
    has a row. *)
Theorem construction_succeeds (tables : AssetPerfomances) (cal : DataFrame)
        (f : date) (rest : list date) :
  __get_new_index (_prices tables) = Ok cal ->
  columns (_prices tables) <> [] ->
  NoDup (columns (_prices tables)) ->
  df_index (_exchanges tables) = f :: rest ->
  increasing (f :: rest) ->
  List.length (f :: rest) = Z.to_nat (last rest f - f + 1) ->
  rectangular (_exchanges tables) ->
  (forall asset, In asset (columns (_prices tables)) -> known_currency tables asset) ->
  nrows cal <= nrows (_exchanges tables) ->
  nrows (_exchanges tables) <> 1 ->
  df_index (_weights tables) <> [] ->
  exists self, TotalPerfomance_init tables = Ok self.
Proof.
  intros Hcal Hcols Hnd Hidx Hinc Hfull Hrect Hknown Hrows Hone Hweights.
  assert (Hne : df_index (_prices tables) <> []).
  { unfold __get_new_index in Hcal.
    destruct (df_index (_prices tables)); [discriminate | discriminate]. }
  (* the frame of price returns *)
  destruct (@all_assets_frame _ _ (__count_return_prices_for_asset tables) cal
              (columns (_prices tables)) Hcols Hnd) as (rt & Hrt & _).
  { intros c Hc. destruct (lookup_in_columns _ _ Hc) as [raw Hraw].
    destruct (get_new_index_column _ _ Hne Hraw) as (cal' & col & Hcal' & Hget & Hlen).
    rewrite Hcal in Hcal'. injection Hcal' as <-.
    eexists. split.
    - unfold __count_return_prices_for_asset. rewrite Hcal. simpl.
      rewrite Hget. reflexivity.
    - rewrite perfomance_for_asset_length, replace_na_values_length, Hlen. reflexivity. }
  apply all_assets_bind in Hrt.
  (* the frame of currency returns *)
  destruct (@assign_all_currency_known _ _ tables (columns (_prices tables)) Hrect Hknown
              tables empty_frame (same_shape_refl tables) (or_introl eq_refl))
    as (df1 & self1 & Hloop & Hshape & Hdf1).
  assert (Hn : nrows df1 = List.length rest).
  { destruct Hdf1 as [E|[E _]]; [|contradiction].
    rewrite E. unfold nrows. rewrite Hidx. simpl. lia. }
  pose proof Hshape as (Hp & Hc & Hw & Hi & _).
  assert (Hidx1 : df_index (_exchanges self1) = f :: rest) by (rewrite <- Hi; exact Hidx).
  pose proof (get_new_index_increasing (_exchanges self1) Hidx1 Hinc) as Hcal_e.
  assert (Hset : exists crt,
             set_index df1 (tl (date_range f (last rest f))) = Ok crt).
  { unfold set_index. rewrite Hn.
    replace (List.length (tl (date_range f (last rest f)))) with (List.length rest).
    - rewrite Nat.eqb_refl. eexists. reflexivity.
    - replace (List.length (tl (date_range f (last rest f))))
        with (List.length (date_range f (last rest f)) - 1)
        by (destruct (date_range f (last rest f)); simpl; lia).
      rewrite date_range_length. simpl in Hfull. lia. }
  destruct Hset as [crt Hset].
  (* the frame of total returns, on the object after the currency step *)
  assert (Hcal1 : __get_new_index (_prices self1) = Ok cal) by (rewrite <- Hp; exact Hcal).
  destruct (@all_assets_frame _ _ (__count_total_perfomance_for_asset self1) cal
              (columns (_prices tables)) Hcols Hnd) as (trt & Htrt & _).
  { intros c Hcin. destruct (lookup_in_columns _ _ Hcin) as [raw Hraw].
    rewrite Hp in Hraw, Hne.
    pose proof (applicable_rate_length c Hrect Hshape) as Hrate.
    destruct (@total_perfomance_of_value _ _ self1 c raw Hne Hraw)
      as (cal' & col & perf & Hcal' & _ & Hperf & Hlen & _).
    - rewrite Hrate. exact Hone.
    - intros cal0 Hcal0. rewrite Hcal1 in Hcal0. injection Hcal0 as <-.
      rewrite Hrate. exact Hrows.
    - rewrite Hcal1 in Hcal'. injection Hcal' as <-.
      exists perf. split; [exact Hperf | exact Hlen]. }
  apply all_assets_bind in Htrt.
  (* the prepared weights *)
  assert (Hpw : exists w, _prepare_weights_df self1 = Ok w).
  { unfold _prepare_weights_df, __get_new_index. rewrite <- Hw.
    destruct (df_index (_weights tables)); [congruence|].
    eexists. reflexivity. }
  destruct Hpw as [w Hpw].
  unfold TotalPerfomance_init, PerfomancesWithWeights_init,
    _calculate_price_perfomance_for_all_assets,
    _calculate_currency_perfomance_for_all_assets,
    _calculate_total_perfomance_for_all_assets.
  rewrite Hcal. rewrite Hrt. cbn [bind].
  rewrite Hloop. cbn [bind fst snd]. rewrite Hcal_e. cbn [bind df_index].
  rewrite Hset. cbn [bind fst snd].
  rewrite <- Hp. rewrite Hcal. rewrite Htrt. cbn [bind].
  rewrite Hpw. cbn [bind]. eexists. reflexivity.
Qed.

End Construction.

(** ** The further properties at the sample tables *)

Lemma replace_na_values_complete_witness :
  isna (nth 2 (__replace_na_values [None; q 1 1; None]) nan) = false.
Proof.
  apply (@replace_na_values_complete num num_ops [None; q 1 1; None] (q 1 1) 2).
  - reflexivity.
  - simpl. lia.
Defined.

Lemma replace_na_values_keeps_observations_witness :
  nth 1 (__replace_na_values [None; q 1 1; None]) nan = q 1 1.
Proof.
  apply (proj1 (proj2 (@replace_na_values_keeps_observations num num_ops
                         [None; q 1 1; None])) 1).
  - simpl. lia.
  - reflexivity.
Defined.

Lemma get_new_index_daily_unchanged_witness :
  __get_new_index (_exchanges sample_tables) = Ok (_exchanges sample_tables).
Proof.
  apply (@get_new_index_daily_unchanged num num_ops (_exchanges sample_tables) 0%Z 3%Z).
  - reflexivity.
  - lia.
  - repeat constructor.
Defined.

Lemma get_new_index_keeps_observations_witness :
  exists cal col,
    __get_new_index (_prices sample_tables) = Ok cal /\
    getitem cal "A"%string = Ok col /\
    nth 2 col nan = q 110 1.
Proof.
  destruct (@get_new_index_keeps_observations num num_ops (_prices sample_tables)
              "A"%string 0%Z [2; 3]%Z [q 100 1; q 110 1; q 121 1] 1)
    as (cal & col & Hcal & Hcol & _ & Hcell).
  - reflexivity.
  - simpl. intuition lia.
  - reflexivity.
  - simpl. lia.
  - exists cal, col. split; [exact Hcal|]. split; [exact Hcol | exact Hcell].
Defined.

Lemma currency_return_formula_witness :
  exists perf self',
    __count_currency_perfomance_for_asset sample_tables "A"%string = Ok (perf, self') /\
    List.length perf = 3.
Proof.
  destruct (@currency_return_formula num num_ops sample_tables "A"%string "EUR"%string
              [q 1 1; None; q 11 10; q 12 10])
    as (perf & self' & Hperf & Hlen & _).
  - reflexivity.
  - discriminate.
  - reflexivity.
  - exists perf, self'. split; [exact Hperf | exact Hlen].
Defined.

Lemma get_series_by_currency_never_raises_witness :
  __get_series_by_currency sample_tables "B"%string =
  Ok (Column (repeat fone (nrows (_exchanges sample_tables)))).
Proof.
  destruct (@get_series_by_currency_never_raises num num_ops sample_tables "B"%string)
    as (sq & Hsq & _ & Hfallback & _).
  rewrite Hsq. f_equal. apply (Hfallback "USD"%string); reflexivity.
Defined.

Lemma missing_asset_raises_key_error_witness :
  __count_return_prices_for_asset sample_tables "Z"%string = Raise KeyError.
Proof.
  apply (proj1 (@missing_asset_raises_key_error num num_ops sample_tables "Z"%string
                  ltac:(discriminate) eq_refl)).
Defined.

Lemma empty_prices_raise_index_error_witness :
  TotalPerfomance_init empty_tables = Raise IndexError.
Proof.
  apply (@empty_prices_raise_index_error num num_ops empty_tables "A"%string eq_refl).
Defined.

Lemma short_exchange_table_raises_index_error_witness :
  __count_total_perfomance_for_asset short_exchange_tables "A"%string = Raise IndexError.
Proof.
  eapply (@short_exchange_table_raises_index_error num num_ops short_exchange_tables
            "A"%string [q 100 1; q 110 1; q 121 1]).
  - vm_compute. reflexivity.
  - reflexivity.
  - intros c x Hc. injection Hc as <-. discriminate.
  - vm_compute. lia.
  - vm_compute. lia.
Defined.

Lemma single_row_exchange_raises_attribute_error_witness :
  __count_total_perfomance_for_asset single_day_tables "A"%string = Raise AttributeError.
Proof.
  apply (@single_row_exchange_raises_attribute_error num num_ops single_day_tables
           "A"%string "EUR"%string [q 100 1] (q 1 1)).
  - discriminate.
  - reflexivity.
  - reflexivity.
  - reflexivity.
Defined.

Lemma price_perfomance_frame_witness :
  exists frame,
    _calculate_price_perfomance_for_all_assets sample_tables = Ok frame /\
    columns frame = ["A"%string; "B"%string].
Proof.
  destruct (@price_perfomance_frame num num_ops sample_tables)
    as (cal & frame & _ & Hframe & _ & Hcols & _).
  - discriminate.
  - discriminate.
  - repeat constructor; simpl; intuition discriminate.
  - exists frame. split; [exact Hframe | exact Hcols].
Defined.



Lemma prepare_weights_frame_witness :
  exists w,
    _prepare_weights_df sample_tables = Ok w /\
    df_index w = [0; 1; 2]%Z.
Proof.
  destruct (proj2 (@prepare_weights_frame num num_ops sample_tables)
                  "A"%string 0%Z [2; 3]%Z [q 1 2; q 1 2; q 1 4])
    as (cal & col & w & wcol & _ & _ & Hw & Hidx & _).
  - reflexivity.
  - simpl. intuition lia.
  - reflexivity.
  - exists w. split; [exact Hw | exact Hidx].
Defined.

Lemma weighted_series_by_label_witness :
  _calculate_price_perfomance_according_on_weights same_calendar_object =
  map (fun d => (d, weighted_sum (__rt same_calendar_object)
                                 (__weights same_calendar_object) d))
      [0; 1; 2]%Z.
Proof.
  apply (proj1 (@weighted_series_by_label num num_ops same_calendar_object
                  ltac:(repeat constructor)
                  ltac:(repeat constructor; simpl; intuition discriminate))).
  - repeat constructor.
  - repeat constructor; simpl; intuition discriminate.
Defined.

Lemma queries_answer_by_dates_witness :
  calculate_asset_performance sample_object 2%Z 1%Z = Raise ValueError.
Proof.
  apply (proj1 (@queries_answer_by_dates num num_ops sample_object)
               ltac:(simpl; intuition lia) 2%Z 1%Z).
  - simpl. tauto.
  - simpl. tauto.
  - lia.
Defined.

Lemma built_series_increasing_witness :
  increasing (s_index (__res_t sample_object)).
Proof.
  apply (@built_series_increasing num num_ops sample_tables sample_object).
  - exact sample_object_built.
  - simpl. intuition lia.
  - simpl. intuition lia.
  - simpl. intuition lia.
Defined.

Lemma get_loc_finds_position_witness :
  get_loc [0; 2; 3]%Z 2%Z = Ok (At 1).
Proof.
  apply (proj1 (get_loc_finds_position [0; 2; 3]%Z) 1).
  - repeat constructor; simpl; intuition discriminate.
  - simpl. lia.
Defined.

Lemma shared_calendar_series_witness :
  s_index (according_on_weights (__rt same_calendar_object)
                                (__weights same_calendar_object)) = date_range 0%Z 2%Z.
Proof.
  apply (@shared_calendar_series num num_ops (__rt same_calendar_object)
           (__weights same_calendar_object) 0%Z 2%Z).
  - lia.
  - reflexivity.
  - reflexivity.
Defined.

Lemma construction_succeeds_witness :
  exists self, TotalPerfomance_init sample_tables = Ok self.
Proof.
  eapply (@construction_succeeds num num_ops sample_tables _ 0%Z [1; 2; 3]%Z).
  - vm_compute. reflexivity.
  - discriminate.
  - repeat constructor; simpl; intuition discriminate.
  - reflexivity.
  - simpl. intuition lia.
  - vm_compute. reflexivity.
  - repeat constructor.
  - intros asset [<-|[<-|[]]].
    + exists "EUR"%string. split; [reflexivity | right; eexists; reflexivity].
    + exists "USD"%string. split; [reflexivity | left; reflexivity].
  - vm_compute. lia.
  - vm_compute. lia.
  - discriminate.
Defined.
